(** * SECURE-WIPE-PRO: a shallow embedding of [wiping.py]

    The development follows the source file top-down: byte strings and the
    integer codecs of Python ([int.to_bytes], [int.from_bytes], slicing),
    the world the program runs in (file system, entropy source, clock,
    external processes), the container codec, the key wipe, the certificate
    signer and the job engine.  Library code the program calls but does not
    contain (AES-GCM, the UTF-8 codec, [pathlib]'s [name], RSA signing) is
    taken as a parameter of a section together with the law the program
    relies on. *)

From Stdlib Require Import ZArith NArith List String Ascii Lia.
From Stdlib.Strings Require Import Byte.
From stdpp Require Import base option list gmap strings.


(** ** Byte strings *)

Abbreviation bytes := (list byte).

#[global] Instance byte_eq_dec : EqDecision byte := Byte.byte_eq_dec.

(** [b"..."] literals. *)
Definition b_lit (s : string) : bytes := list_byte_of_string s.

(** [bytes([n])] for [0 <= n < 256]; the callers only pass such [n]. *)
Definition byte_of_N (n : N) : byte :=
  match Byte.of_N n with Some b => b | None => x00 end.

(** Python's slice [l[i:j]] for [0 <= i <= j]: out-of-range bounds are
    clamped, never an error. *)
Definition slice {A} (l : list A) (i j : nat) : list A :=
  take (j - i) (drop i l).

(** [int.from_bytes(l, "big")], defined on a byte string of any length
    (the empty string gives 0). *)
Definition int_from_bytes (l : bytes) : N :=
  fold_left (fun acc b => (acc * 256 + Byte.to_N b)%N) l 0%N.

(** The [len] low-order base-256 digits of [v], most significant first. *)
Fixpoint be_digits (len : nat) (v : N) : bytes :=
  match len with
  | O => []
  | S k => be_digits k (v / 256)%N ++ [byte_of_N (v mod 256)%N]
  end.

(** ** Exceptions and results *)

Inductive exn : Type :=
  | Exception (msg : string)
  | HTTPException (status_code : nat) (detail : string)
  | FileExistsError (msg : string)
  | FileNotFoundError (msg : string)
  | IsADirectoryError (msg : string)
  | OSError (msg : string)
  | ValueError (msg : string)
  | TypeError (msg : string)
  | OverflowError (msg : string)
  | UnicodeDecodeError (msg : string)
  | InvalidTag
  | CalledProcessError (msg : string).

(** [str(e)] *)
Definition exn_str (e : exn) : string :=
  match e with
  | Exception m | FileExistsError m | FileNotFoundError m
  | IsADirectoryError m | OSError m | ValueError m | TypeError m
  | OverflowError m | UnicodeDecodeError m | CalledProcessError m => m
  | HTTPException _ d => d
  | InvalidTag => EmptyString
  end.

Inductive result (A : Type) : Type :=
  | Ok (a : A)
  | Raise (e : exn).
Arguments Ok {A} a.
Arguments Raise {A} e.

(** [n.to_bytes(len, "big")] for [n >= 0]: [OverflowError] when [n] does
    not fit. *)
Definition int_to_bytes (len : nat) (v : N) : result bytes :=
  if (v <? 256 ^ N.of_nat len)%N then Ok (be_digits len v)
  else Raise (OverflowError "int too big to convert").

(** ** The world *)

(** An external command, as handed to [subprocess.check_output]. *)
Inductive command : Type :=
  | Argv (args : list string)
  | Shell (line : string).

Inductive proc_outcome : Type :=
  | ExitZero
  | ExitNonZero (msg : string)
  | SpawnFailed (e : exn).

(** What the program does to the outside that is not a plain file write. *)
Inductive event : Type :=
  | EvExec (c : command)
  | EvFsync (path : string) (image : bytes)
  | EvUnlink (path : string).

Inductive job_status : Type := Queued | Running | Finished | Failed.

#[global] Instance job_status_eq_dec : EqDecision job_status.
Proof. solve_decision. Defined.

Definition status_str (s : job_status) : string :=
  match s with
  | Queued => "queued" | Running => "running"
  | Finished => "finished" | Failed => "failed"
  end.

(** The attributes of an [OSWipeJob]. *)
Record job : Type := Job {
  job_id : string;
  job_os : string;
  job_target : string;
  job_action : string;
  job_state : job_status;
  job_log : string;
  job_success : bool;
  job_certificate : option string;
}.

(** The world threaded through every operation.
    - [files], [dirs]: the file system, keyed by path text (paths are
      compared as text; links and [..] are not resolved);
    - [entropy], [drawn]: the operating system's random source as an
      infinite tape and the number of bytes already taken from it;
    - [clock], [ticks]: the text [time.strftime] returns for a format at
      its k-th reading;
    - [io_budget]: how many [write] calls succeed before the next one
      raises [OSError] ([None]: writes never fail);
    - [procs]: the outcome of running an external command;
    - [trace]: the events so far, oldest first;
    - [jobs]: the process-wide [JOBS] table; [timeline]: every value
      assigned to a job's [status] attribute, oldest first. *)
Record world : Type := World {
  files : gmap string bytes;
  dirs : gset string;
  entropy : nat -> byte;
  drawn : nat;
  clock : string -> nat -> string;
  ticks : nat;
  io_budget : option nat;
  procs : command -> proc_outcome;
  trace : list event;
  jobs : gmap string job;
  timeline : list (string * job_status);
}.

Definition set_files (f : gmap string bytes -> gmap string bytes) (w : world) : world :=
  World (f (files w)) (dirs w) (entropy w) (drawn w) (clock w) (ticks w)
        (io_budget w) (procs w) (trace w) (jobs w) (timeline w).
Definition set_dirs (f : gset string -> gset string) (w : world) : world :=
  World (files w) (f (dirs w)) (entropy w) (drawn w) (clock w) (ticks w)
        (io_budget w) (procs w) (trace w) (jobs w) (timeline w).
Definition set_drawn (f : nat -> nat) (w : world) : world :=
  World (files w) (dirs w) (entropy w) (f (drawn w)) (clock w) (ticks w)
        (io_budget w) (procs w) (trace w) (jobs w) (timeline w).
Definition set_ticks (f : nat -> nat) (w : world) : world :=
  World (files w) (dirs w) (entropy w) (drawn w) (clock w) (f (ticks w))
        (io_budget w) (procs w) (trace w) (jobs w) (timeline w).
Definition set_io_budget (f : option nat -> option nat) (w : world) : world :=
  World (files w) (dirs w) (entropy w) (drawn w) (clock w) (ticks w)
        (f (io_budget w)) (procs w) (trace w) (jobs w) (timeline w).
Definition set_trace (f : list event -> list event) (w : world) : world :=
  World (files w) (dirs w) (entropy w) (drawn w) (clock w) (ticks w)
        (io_budget w) (procs w) (f (trace w)) (jobs w) (timeline w).
Definition set_jobs (f : gmap string job -> gmap string job) (w : world) : world :=
  World (files w) (dirs w) (entropy w) (drawn w) (clock w) (ticks w)
        (io_budget w) (procs w) (trace w) (f (jobs w)) (timeline w).
Definition set_timeline (f : list (string * job_status) -> list (string * job_status))
    (w : world) : world :=
  World (files w) (dirs w) (entropy w) (drawn w) (clock w) (ticks w)
        (io_budget w) (procs w) (trace w) (jobs w) (f (timeline w)).

(** ** The monad of the program: state and exceptions

    The world survives an exception: what was written before a [raise]
    stays written. *)

Definition M (A : Type) : Type := world -> result A * world.

#[global] Instance M_ret : MRet M := fun A a w => (Ok a, w).
#[global] Instance M_bind : MBind M := fun A B f m w =>
  match m w with
  | (Ok a, w') => f a w'
  | (Raise e, w') => (Raise e, w')
  end.

Definition raise {A} (e : exn) : M A := fun w => (Raise e, w).
Definition get_world : M world := fun w => (Ok w, w).
Definition modify (f : world -> world) : M unit := fun w => (Ok tt, f w).
Definition lift {A} (r : result A) : M A := fun w => (r, w).

(** [try: c  except Exception as e: h e] *)
Definition try_except {A} (c : M A) (h : exn -> M A) : M A := fun w =>
  match c w with
  | (Ok a, w') => (Ok a, w')
  | (Raise e, w') => h e w'
  end.

(** ** File system and entropy primitives *)

(** [Path.exists()] *)
Definition path_exists (p : string) : M bool := fun w =>
  (Ok (bool_decide (is_Some (files w !! p)) || bool_decide (p ∈ dirs w)), w).

(** [Path.read_bytes()], also [open(p, "rb")] followed by reads. *)
Definition read_bytes (p : string) : M bytes := fun w =>
  match files w !! p with
  | Some b => (Ok b, w)
  | None =>
      if bool_decide (p ∈ dirs w) then (Raise (IsADirectoryError p), w)
      else (Raise (FileNotFoundError p), w)
  end.

(** [open(p, "wb")]: the file is created or truncated at once. *)
Definition open_wb (p : string) : M unit := fun w =>
  if bool_decide (p ∈ dirs w) then (Raise (IsADirectoryError p), w)
  else (Ok tt, set_files (<[p := []]>) w).

(** [f.write(data)] on a file opened for writing at its end. *)
Definition fwrite (p : string) (data : bytes) : M unit := fun w =>
  match io_budget w with
  | Some O => (Raise (OSError "write failed"), w)
  | budget =>
      (Ok tt, set_io_budget (fun _ => pred <$> budget)
                (set_files (fun fs => <[p := default [] (fs !! p) ++ data]> fs) w))
  end.

(** [Path.write_bytes(data)] *)
Definition write_bytes (p : string) (data : bytes) : M unit :=
  open_wb p ;; fwrite p data.

(** [secrets.token_bytes(n)]: the next [n] bytes of the tape. *)
Definition token_bytes (n : nat) : M bytes := fun w =>
  (Ok (map (entropy w) (seq (drawn w) n)), set_drawn (fun d => d + n) w).

(** [Path.mkdir(parents=True, exist_ok=True)] *)
Definition mkdir_p (p : string) : M unit := fun w =>
  if bool_decide (is_Some (files w !! p)) then (Raise (FileExistsError p), w)
  else (Ok tt, set_dirs (fun ds => {[p]} ∪ ds) w).

(** [Path.unlink()] *)
Definition unlink (p : string) : M unit := fun w =>
  match files w !! p with
  | Some _ => (Ok tt, set_trace (fun t => t ++ [EvUnlink p]) (set_files (delete p) w))
  | None => (Raise (FileNotFoundError p), w)
  end.

(** [outdir / fn] for a relative or absolute [fn]; exact when [fn] is a
    single path segment, which is what [Path(...).name] produces. *)
Definition path_join (d fn : string) : string :=
  match fn with
  | EmptyString => d
  | String "/"%char _ => fn
  | _ => d +:+ "/" +:+ fn
  end.

(** The 12 bytes of the tape [e] from position [d] on: what
    [secrets.token_bytes(12)] returns once [d] bytes were drawn. *)
Definition block (e : nat -> byte) (d : nat) : bytes := map e (seq d 12).

(** Between the positions [lo] and [hi] the tape [e] holds no two equal
    12-byte blocks that do not overlap: the random source never returns
    the same nonce twice there. *)
Definition unrepeated (e : nat -> byte) (lo hi : nat) : Prop :=
  forall d1 d2, lo <= d1 -> d1 + 12 <= d2 -> d2 + 12 <= hi ->
    block e d1 <> block e d2.

(** ** Container encryption helpers (AES-GCM) *)

Section Container.

(** AES-GCM of the [cryptography] package: key, nonce, data. *)
Variable aead_encrypt : bytes -> bytes -> bytes -> bytes.
Variable aead_decrypt : bytes -> bytes -> bytes -> option bytes.
(** [str.encode("utf-8")], [bytes.decode("utf-8")], [Path(s).name]. *)
Variable utf8_encode : string -> bytes.
Variable utf8_decode : bytes -> option string.
Variable path_name : string -> string.

Definition MAGIC : bytes := b_lit "CRYPTOCNT1".

Definition generate_key_bytes : M bytes := token_bytes 32.

(** The [chmod] of the source sits in a [try] that swallows every error
    and changes no content. *)
Definition save_key (key_bytes : bytes) (keypath : string) : M unit :=
  write_bytes keypath key_bytes.

Definition load_key (keypath : string) : M bytes := read_bytes keypath.

(** [AESGCM(k)]: the constructor rejects a key that is not 128, 192 or
    256 bits long. *)
Definition AESGCM (k : bytes) : M bytes :=
  if bool_decide (length k = 16 ∨ length k = 24 ∨ length k = 32) then mret k
  else raise (ValueError "AESGCM key must be 128, 192, or 256 bits.").

Definition nonce_ok (nonce : bytes) : bool :=
  bool_decide (8 ≤ length nonce ≤ 128).

(** [aes.encrypt(nonce, data, None)] *)
Definition aes_encrypt (aes nonce data : bytes) : M bytes :=
  if nonce_ok nonce then mret (aead_encrypt aes nonce data)
  else raise (ValueError "Nonce must be between 8 and 128 bytes").

(** [aes.decrypt(nonce, ct, None)] *)
Definition aes_decrypt (aes nonce ct : bytes) : M bytes :=
  if nonce_ok nonce then
    match aead_decrypt aes nonce ct with
    | Some plain => mret plain
    | None => raise InvalidTag
    end
  else raise (ValueError "Nonce must be between 8 and 128 bytes").

(** The four writes that lay a container out on disk. *)
Definition write_container (container_path : string) (nonce ct : bytes) : M unit :=
  open_wb container_path ;;
  fwrite container_path MAGIC ;;
  fwrite container_path [byte_of_N (N.of_nat (length nonce))] ;;
  fwrite container_path nonce ;;
  fwrite container_path ct.

Definition create_encrypted_container (container_path key_path : string) : M unit :=
  ex ← path_exists container_path;
  if ex : bool then raise (FileExistsError "container exists") else
  kex ← path_exists key_path;
  k ← (if kex : bool then load_key key_path
       else k ← generate_key_bytes; save_key k key_path ;; mret k);
  aes ← AESGCM k;
  nonce ← token_bytes 12;
  ct ← aes_encrypt aes nonce [];
  write_container container_path nonce ct.

(** The block [with open(container_path, "rb") as f: ...] that
    [add_file_to_container], [list_container] and [extract_all] share:
    returns the nonce and the ciphertext. *)
Definition read_container (container_path : string) : M (bytes * bytes) :=
  raw ← read_bytes container_path;
  let magic := slice raw 0 (length MAGIC) in
  if bool_decide (magic = MAGIC) then
    match slice raw 10 11 with
    | [b] =>
        let nl := N.to_nat (Byte.to_N b) in
        mret (slice raw 11 (11 + nl), drop (11 + nl) raw)
    | _ => raise (TypeError "ord() expected a character, but string of length 0 found")
    end
  else raise (HTTPException 400 "bad container").

(** A tiny archive format: [fname_len:2][fname][data_len:8][data] per
    record. *)
Definition make_record (fname data : bytes) : result bytes :=
  match int_to_bytes 2 (N.of_nat (length fname)) with
  | Raise e => Raise e
  | Ok l1 =>
      match int_to_bytes 8 (N.of_nat (length data)) with
      | Raise e => Raise e
      | Ok l2 => Ok (l1 ++ fname ++ l2 ++ data)
      end
  end.

(** [uploaded] is given by its [filename] and the bytes [file.read()]
    returns. *)
Definition add_file_to_container (container_path key_path : string)
    (filename : string) (content : bytes) : M unit :=
  key ← load_key key_path;
  aes ← AESGCM key;
  '(nonce, ct) ← read_container container_path;
  plain ← aes_decrypt aes nonce ct;
  let data := content in
  let fname := utf8_encode (path_name filename) in
  rec ← lift (make_record fname data);
  let new_plain := plain ++ rec in
  new_nonce ← token_bytes 12;
  new_ct ← aes_encrypt aes new_nonce new_plain;
  write_container container_path new_nonce new_ct.

(** [fn = plain[idx:idx+fnl].decode("utf-8")] *)
Definition decode_name (raw : bytes) : result string :=
  match utf8_decode raw with
  | Some s => Ok s
  | None => Raise (UnicodeDecodeError "invalid utf-8")
  end.

(** The [while idx < len(plain)] loop of [list_container]; [fuel] bounds
    the number of iterations ([None]: fuel exhausted). *)
Fixpoint list_loop (fuel : nat) (plain : bytes) (idx : nat) (names : list string)
    : option (result (list string)) :=
  if bool_decide (idx < length plain) then
    match fuel with
    | O => None
    | S fuel' =>
        let fnl := N.to_nat (int_from_bytes (slice plain idx (idx + 2))) in
        let idx := idx + 2 in
        match decode_name (slice plain idx (idx + fnl)) with
        | Raise e => Some (Raise e)
        | Ok fn =>
            let idx := idx + fnl in
            let dlen := N.to_nat (int_from_bytes (slice plain idx (idx + 8))) in
            let idx := idx + 8 in
            let idx := idx + dlen in
            list_loop fuel' plain idx (names ++ [fn])
        end
    end
  else Some (Ok names).

Definition list_container (container_path key_path : string) : M (list string) :=
  key ← load_key key_path;
  aes ← AESGCM key;
  '(nonce, ct) ← read_container container_path;
  plain ← aes_decrypt aes nonce ct;
  match list_loop (length plain) plain 0 [] with
  | Some r => lift r
  | None => raise (Exception "unreachable: loop fuel")
  end.

(** The [while idx < len(plain)] loop of [extract_all]. *)
Fixpoint extract_loop (fuel : nat) (outdir : string) (plain : bytes) (idx : nat)
    : M bool :=
  if bool_decide (idx < length plain) then
    match fuel with
    | O => mret false
    | S fuel' =>
        let fnl := N.to_nat (int_from_bytes (slice plain idx (idx + 2))) in
        let idx := idx + 2 in
        fn ← lift (decode_name (slice plain idx (idx + fnl)));
        let idx := idx + fnl in
        let dlen := N.to_nat (int_from_bytes (slice plain idx (idx + 8))) in
        let idx := idx + 8 in
        let data := slice plain idx (idx + dlen) in
        let idx := idx + dlen in
        write_bytes (path_join outdir fn) data ;;
        extract_loop fuel' outdir plain idx
    end
  else mret true.

Definition extract_all (container_path key_path outdir : string) : M unit :=
  mkdir_p outdir ;;
  key ← load_key key_path;
  aes ← AESGCM key;
  '(nonce, ct) ← read_container container_path;
  plain ← aes_decrypt aes nonce ct;
  done ← extract_loop (length plain) outdir plain 0;
  if done : bool then mret tt else raise (Exception "unreachable: loop fuel").

(** *** Vocabulary of the container properties *)

(** The bytes of a container file holding [nonce] and [ct]. *)
Definition container_image (nonce ct : bytes) : bytes :=
  MAGIC ++ [byte_of_N (N.of_nat (length nonce))] ++ nonce ++ ct.

(** The record [make_record] builds when both lengths fit. *)
Definition record_bytes (fname data : bytes) : bytes :=
  be_digits 2 (N.of_nat (length fname)) ++ fname
    ++ be_digits 8 (N.of_nat (length data)) ++ data.

(** A name and a content whose lengths fit their prefixes. *)
Definition encodable (r : string * bytes) : Prop :=
  (N.of_nat (length (utf8_encode r.1)) < 2 ^ 16)%N
  /\ (N.of_nat (length r.2) < 2 ^ 64)%N.

(** The plaintext holding the records [rs] (stored name, content). *)
Fixpoint archive (rs : list (string * bytes)) : bytes :=
  match rs with
  | [] => []
  | r :: rs' => record_bytes (utf8_encode r.1) r.2 ++ archive rs'
  end.

(** A last record whose header declares [dlen] content bytes while only
    [rest] follows. *)
Definition truncated_record (fname : bytes) (dlen : N) (rest : bytes) : bytes :=
  be_digits 2 (N.of_nat (length fname)) ++ fname ++ be_digits 8 dlen ++ rest.


(** The name a record is stored under for an uploaded (name, content). *)
Definition stored (up : string * bytes) : string * bytes :=
  (path_name up.1, up.2).

(** Adding a sequence of (name, content) pairs, one call each. *)
Fixpoint add_files (container_path key_path : string)
    (pairs : list (string * bytes)) : M unit :=
  match pairs with
  | [] => mret tt
  | up :: ps =>
      add_file_to_container container_path key_path up.1 up.2 ;;
      add_files container_path key_path ps
  end.

(** One successful encryption of the container at [container_path]
    under the key at [key_path]: its creation, or the addition of a
    file. *)
Definition mutation (container_path key_path : string) (w w' : world) : Prop :=
  create_encrypted_container container_path key_path w = (Ok tt, w')
  \/ exists filename content,
       add_file_to_container container_path key_path filename content w
       = (Ok tt, w').

(** Consecutive mutations of the container, leading from [w] through
    the worlds [ws]. *)
Fixpoint mutations (container_path key_path : string) (w : world)
    (ws : list world) : Prop :=
  match ws with
  | [] => True
  | w' :: ws' =>
      mutation container_path key_path w w'
      /\ mutations container_path key_path w' ws'
  end.

(** The writes of [extract_all] for the records [rs], in order. *)
Fixpoint write_records (outdir : string) (rs : list (string * bytes)) : M unit :=
  match rs with
  | [] => mret tt
  | r :: rs' => write_bytes (path_join outdir r.1) r.2 ;; write_records outdir rs'
  end.

(** The container at [cp] is well formed and decrypts under the key at
    [kp] to [plain]; writes succeed. *)
Definition holds (w : world) (cp kp : string) (plain : bytes) : Prop :=
  exists k nonce ct,
    (files w !! kp) = Some k
    /\ (length k = 16 \/ length k = 24 \/ length k = 32)
    /\ (files w !! cp) = Some (container_image nonce ct)
    /\ length nonce = 12
    /\ aead_decrypt k nonce ct = Some plain
    /\ io_budget w = None /\ (cp ∉ dirs w) /\ cp <> kp.


End Container.

(** *** Vocabulary of the extraction properties *)

(** A name without a path separator. *)
Fixpoint segment (n : string) : bool :=
  match n with
  | EmptyString => true
  | String c n' => negb (Ascii.eqb c "/"%char) && segment n'
  end.

(** The content of the last record of [rs] stored under the name [n]. *)
Fixpoint last_content (n : string) (rs : list (string * bytes)) : option bytes :=
  match rs with
  | [] => None
  | r :: rs' =>
      match last_content n rs' with
      | Some d => Some d
      | None => if decide (r.1 = n) then Some r.2 else None
      end
  end.


(** The files of the output directory after the records [rs] were written
    in order over [fs]. *)
Definition files_after (outdir : string) (rs : list (string * bytes))
    (fs : gmap string bytes) : gmap string bytes :=
  foldl (fun fs r => <[path_join outdir r.1 := r.2]> fs) fs rs.


(** ** Key wipe (cryptographic erase): secure overwrite and delete *)

(** A file object opened with mode ["r+b"]: the path and the position. *)
Record handle : Type := Handle { h_path : string; h_pos : nat }.

(** [open(path, "r+b")]: the file must exist; nothing is truncated. *)
Definition open_rpb (p : string) : M handle := fun w =>
  match files w !! p with
  | Some _ => (Ok (Handle p 0), w)
  | None =>
      if bool_decide (p ∈ dirs w) then (Raise (IsADirectoryError p), w)
      else (Raise (FileNotFoundError p), w)
  end.

(** [f.seek(0)] *)
Definition seek0 (f : handle) : handle := Handle (h_path f) 0.

(** Overwriting [data] into [old] at offset [pos]; a gap past the end is
    filled with zero bytes, as the operating system does. *)
Definition overwrite_at (old : bytes) (pos : nat) (data : bytes) : bytes :=
  take pos old ++ replicate (pos - length old) x00 ++ data
    ++ drop (pos + length data) old.

(** [f.write(data)] at the current position. *)
Definition hwrite (f : handle) (data : bytes) : M handle := fun w =>
  match io_budget w with
  | Some O => (Raise (OSError "write failed"), w)
  | budget =>
      (Ok (Handle (h_path f) (h_pos f + length data)),
       set_io_budget (fun _ => pred <$> budget)
         (set_files (fun fs =>
            <[h_path f := overwrite_at (default [] (fs !! h_path f)) (h_pos f) data]> fs) w))
  end.

(** [f.flush(); os.fsync(f.fileno())]: the current image of the file
    reaches stable storage. *)
Definition flush_fsync (f : handle) : M unit := fun w =>
  (Ok tt, set_trace (fun t => t ++ [EvFsync (h_path f) (default [] (files w !! h_path f))]) w).

(** [path.stat().st_size]; on a directory the value is immaterial, the
    [open] that follows raises. *)
Definition stat_size (p : string) : M N := fun w =>
  match files w !! p with
  | Some b => (Ok (N.of_nat (length b)), w)
  | None =>
      if bool_decide (p ∈ dirs w) then (Ok 0%N, w)
      else (Raise (FileNotFoundError p), w)
  end.

Definition CHUNK : N := 1024 * 1024.

(** [while rem > 0: chunk = min(1024*1024, rem); f.write(src(chunk));
    rem -= chunk], for the random passes ([src] is [secrets.token_bytes])
    and for the zero pass ([src] is [zero[:chunk]]).  [None]: fuel
    exhausted. *)
Fixpoint overwrite_loop (fuel : nat) (src : nat -> M bytes) (f : handle) (rem : N)
    : M (option handle) :=
  if (0 <? rem)%N then
    match fuel with
    | O => mret None
    | S fuel' =>
        let chunk := N.min CHUNK rem in
        data ← src (N.to_nat chunk);
        f ← hwrite f data;
        overwrite_loop fuel' src f (rem - chunk)%N
    end
  else mret (Some f).

(** One round of [for _ in range(passes)]. *)
Definition random_pass (size : N) (f : handle) : M (option handle) :=
  let f := seek0 f in
  r ← overwrite_loop (N.to_nat size) token_bytes f size;
  match r with
  | Some f => flush_fsync f ;; mret (Some f)
  | None => mret None
  end.

Fixpoint random_passes (n : nat) (size : N) (f : handle) : M (option handle) :=
  match n with
  | O => mret (Some f)
  | S n' =>
      r ← random_pass size f;
      match r with
      | Some f => random_passes n' size f
      | None => mret None
      end
  end.

(** [zero = b"\x00" * (1024*1024)] and [zero[:chunk]] *)
Definition zero_chunk (chunk : nat) : M bytes :=
  let zero := replicate (N.to_nat CHUNK) x00 in
  mret (slice zero 0 chunk).

Definition zero_pass (size : N) (path : string) : M bool :=
  f ← open_rpb path;
  let f := seek0 f in
  r ← overwrite_loop (N.to_nat size) zero_chunk f size;
  match r with
  | Some f => flush_fsync f ;; mret true
  | None => mret false
  end.

(** [passes] is a Python [int]; [range(passes)] is empty when it is not
    positive. *)
Definition secure_overwrite_and_delete (path : string) (passes : Z) : M unit :=
  ex ← path_exists path;
  if negb ex then raise (FileNotFoundError "keyfile missing") else
  size ← stat_size path;
  f ← open_rpb path;
  r ← random_passes (Z.to_nat passes) size f;
  match r with
  | None => raise (Exception "unreachable: loop fuel")
  | Some _ =>
      z ← zero_pass size path;
      if z : bool then unlink path
      else raise (Exception "unreachable: loop fuel")
  end.

Definition KEYS_DIR : string := "keys".

(** [POST /container/wipekey]; the reply is [{"ok": True, "status": ...}]
    and is given by its [status]. *)
Definition api_wipekey (key_name : string) (passes : Z) (confirm_token : string)
    : M string :=
  if negb (String.eqb confirm_token "CONFIRM_DESTROY") then
    raise (HTTPException 400 "invalid token (demo requires CONFIRM_DESTROY)")
  else
    let kpath := path_join KEYS_DIR key_name in
    ex ← path_exists kpath;
    if negb ex then raise (HTTPException 404 "key not found") else
    secure_overwrite_and_delete kpath passes ;;
    mret "key destroyed".


(** *** Vocabulary of the key wipe properties *)

(** The [k] successive windows of [n] bytes of the tape [e] from position
    [d] on: what [k] random passes over a file of [n] bytes draw. *)
Definition tape_images (e : nat -> byte) (d n k : nat) : list bytes :=
  map (fun i => map e (seq (d + i * n) n)) (seq 0 k).


(** ** Certificate generation and signing *)

Definition quote_char : ascii := "034"%char.
Definition backslash_char : ascii := "092"%char.
Definition newline : string := String "010"%char EmptyString.

(** A Python [dict] with [str] keys and values, in insertion order. *)
Abbreviation dict := (list (string * string)).

Definition hex_digit (n : N) : ascii :=
  match String.get (N.to_nat n) "0123456789abcdef" with
  | Some c => c
  | None => "0"%char
  end.

(** The JSON escape of one character ([ensure_ascii=True]); a character of
    the model is a code point below 256. *)
Definition json_escape_char (c : ascii) : string :=
  let n := N_of_ascii c in
  let esc (x : ascii) := String backslash_char (String x EmptyString) in
  if (n =? 34)%N then esc quote_char
  else if (n =? 92)%N then esc backslash_char
  else if (n =? 8)%N then esc "b"%char
  else if (n =? 12)%N then esc "f"%char
  else if (n =? 10)%N then esc "n"%char
  else if (n =? 13)%N then esc "r"%char
  else if (n =? 9)%N then esc "t"%char
  else if ((32 <=? n) && (n <=? 126))%N then String c EmptyString
  else esc "u"%char +:+ "00"
       +:+ String (hex_digit (n / 16)) (String (hex_digit (n mod 16)) EmptyString).

Fixpoint json_escape (s : string) : string :=
  match s with
  | EmptyString => EmptyString
  | String c s' => json_escape_char c +:+ json_escape s'
  end.

(** A [str] as a JSON string literal. *)
Definition json_str (s : string) : string :=
  String quote_char (json_escape s) +:+ String quote_char EmptyString.

Definition json_item (kv : string * string) : string :=
  json_str kv.1 +:+ ": " +:+ json_str kv.2.

(** [sorted(d.items())]: a stable insertion sort on the keys. *)
Fixpoint insert_item (kv : string * string) (l : dict) : dict :=
  match l with
  | [] => [kv]
  | kv' :: l' =>
      if String.ltb kv.1 kv'.1 then kv :: l else kv' :: insert_item kv l'
  end.

Definition sort_items (d : dict) : dict := foldl (fun acc kv => insert_item kv acc) [] d.

(** [json.dumps(d, sort_keys=...)] with the default separators. *)
Definition json_dumps (sort_keys : bool) (d : dict) : string :=
  "{" +:+ String.concat ", " (map json_item (if sort_keys then sort_items d else d)) +:+ "}".

Definition CERT_DIR : string := "certs".
Definition LOGS_DIR : string := "logs".
Definition RSA_PRIV : string := "certs/server_rsa_priv.pem".

(** Assignments to one attribute of a job object. *)
Definition with_state (s : job_status) (j : job) : job :=
  Job (job_id j) (job_os j) (job_target j) (job_action j) s
      (job_log j) (job_success j) (job_certificate j).
Definition with_log (l : string) (j : job) : job :=
  Job (job_id j) (job_os j) (job_target j) (job_action j) (job_state j)
      l (job_success j) (job_certificate j).
Definition with_success (b : bool) (j : job) : job :=
  Job (job_id j) (job_os j) (job_target j) (job_action j) (job_state j)
      (job_log j) b (job_certificate j).
Definition with_certificate (c : string) (j : job) : job :=
  Job (job_id j) (job_os j) (job_target j) (job_action j) (job_state j)
      (job_log j) (job_success j) (Some c).

(** The log file of the job [id]. *)
Definition log_path (id : string) : string := path_join LOGS_DIR (id +:+ ".log").

(** The format of the timestamps of the log. *)
Definition LOG_TIME : string := "%Y-%m-%d %H:%M:%S".

(** A step that touched nothing but the job table, the timeline, the
    clock reading and the log file of [id]. *)
Definition quiet (id : string) (w w' : world) : Prop :=
  io_budget w' = io_budget w /\ dirs w' = dirs w /\ trace w' = trace w
  /\ procs w' = procs w /\ clock w' = clock w /\ entropy w' = entropy w
  /\ drawn w' = drawn w
  /\ forall p, p <> log_path id -> files w' !! p = files w !! p.

(** The guidance the engine logs for the manual-only systems. *)
Definition guidance (os : string) : string :=
  if String.eqb os "windows"
  then "Windows destructive actions must be performed manually. See logs for guidance."
  else "macOS actions must be performed via fdesetup/diskutil GUI or manual commands".


(** The first line [run] logs. *)
Definition start_msg (j : job) : string :=
  "Starting OS wipe job " +:+ job_id j +:+ " on " +:+ job_os j
  +:+ " target=" +:+ job_target j +:+ " action=" +:+ job_action j.

(** What [raise Exception(...)] carries for the manual-only systems. *)
Definition manual_msg (os : string) : string :=
  if String.eqb os "windows"
  then "windows actions must be manual in this demo"
  else "macos actions must be manual in demo".

(** The line an [except] clause of [run] logs for the exception [e]. *)
Definition handler_msg (e : exn) : string :=
  match e with
  | CalledProcessError _ => "Command failed: " +:+ exn_str e
  | _ => "Exception: " +:+ exn_str e
  end.

(** The [k]-th log line written after [w], stamped with the clock of [w]. *)
Definition stamp (w : world) (k : nat) (s : string) : string :=
  "[" +:+ clock w LOG_TIME (ticks w + k) +:+ "] " +:+ s +:+ newline.

(** The commands of the two linux actions. *)
Definition killslot_cmd (target : string) : command :=
  Argv ["cryptsetup"; "luksKillSlot"; target; "0"].
Definition zero_header_cmd (target : string) : command :=
  Shell (String.concat " " ["dd"; "if=/dev/zero"; "of=" +:+ target; "bs=1M"; "count=128"]).

(** The command [run] executes for a linux job, if its action is known. *)
Definition wipe_cmd (j : job) : option command :=
  if String.eqb (job_action j) "luks_killslot" then Some (killslot_cmd (job_target j))
  else if String.eqb (job_action j) "zero_header" then Some (zero_header_cmd (job_target j))
  else None.

(** The text of a command, as [run] logs it. *)
Definition cmd_text (c : command) : string :=
  match c with
  | Argv l => String.concat " " l
  | Shell s => s
  end.


(** Where [run] puts the certificate and its signature. *)
Definition cert_path (id : string) : string := path_join CERT_DIR (id +:+ ".json").
Definition sig_path (id : string) : string := path_join CERT_DIR (id +:+ ".sig").

(** [GET /certificate/{job_id}]: the reply is a [FileResponse] for the
    certificate file and is given by the path it serves. *)
Definition api_certificate (id : string) : M string := fun w =>
  match jobs w !! id with
  | None => (Raise (HTTPException 404 "job not found"), w)
  | Some j =>
      let no_certificate :=
        match job_certificate j with
        | Some (String _ _) => false
        | _ => true
        end in
      if negb (String.eqb (status_str (job_state j)) "finished") || no_certificate
      then (Raise (HTTPException 400 "certificate not ready"), w)
      else (Ok (cert_path id), w)
  end.

(** What [subprocess.check_output] raises for an outcome, if anything. *)
Definition proc_error (o : proc_outcome) : option exn :=
  match o with
  | ExitZero => None
  | ExitNonZero msg => Some (CalledProcessError msg)
  | SpawnFailed e => Some e
  end.

(** The message [run] raises before any command for a job it does not
    know how to handle. *)
Definition rejected (j : job) : option string :=
  if String.eqb (job_os j) "linux" then
    match wipe_cmd j with
    | Some _ => None
    | None => Some "unknown action"
    end
  else if String.eqb (job_os j) "windows" then None
  else if String.eqb (job_os j) "macos" then None
  else Some "unsupported os".

Section Jobs.

Variable utf8_encode : string -> bytes.
(** [serialization.load_pem_private_key] and
    [priv.sign(data, PKCS1v15(), SHA256())]. *)
Variable private_key : Type.
Variable load_pem_private_key : bytes -> option private_key.
Variable rsa_sign : private_key -> bytes -> bytes.

Definition sign_certificate (payload : dict) : M bytes :=
  pem ← read_bytes RSA_PRIV;
  match load_pem_private_key pem with
  | None => raise (ValueError "Could not deserialize key data.")
  | Some priv =>
      let data := utf8_encode (json_dumps true payload) in
      let sig := rsa_sign priv data in
      mret sig
  end.

(** ** OS-level wipe orchestration *)

(** [OSWipeJob.__init__] *)
Definition new_job (id osname target action : string) : job :=
  Job id osname target action Queued EmptyString false None.

(** Job objects live in the [JOBS] table under their id. *)
Definition get_job (id : string) : M job := fun w =>
  match jobs w !! id with
  | Some j => (Ok j, w)
  | None => (Raise (Exception "no such job object"), w)
  end.

Definition update_job (id : string) (f : job -> job) : M unit :=
  modify (set_jobs (alter f id)).

(** [self.status = s]; the assignment is recorded on the timeline. *)
Definition set_status (id : string) (s : job_status) : M unit :=
  update_job id (with_state s) ;;
  modify (set_timeline (fun tl => tl ++ [(id, s)])).

(** [self.success = b] *)
Definition set_success (id : string) (b : bool) : M unit :=
  update_job id (with_success b).

(** [self.certificate = c] *)
Definition set_certificate (id : string) (c : string) : M unit :=
  update_job id (with_certificate c).

(** [self.log = l] *)
Definition set_log (id : string) (l : string) : M unit :=
  update_job id (with_log l).

(** [time.strftime(fmt)] and [time.strftime(fmt, time.gmtime())] *)
Definition strftime (fmt : string) : M string := fun w =>
  (Ok (clock w fmt (ticks w)), set_ticks S w).

(** [Path.write_text(s)] *)
Definition write_text (p : string) (s : string) : M unit :=
  write_bytes p (utf8_encode s).

(** One line of the log, as [append_log] formats it. *)
Definition log_line (t s : string) : string :=
  "[" +:+ t +:+ "] " +:+ s +:+ newline.

Definition append_log (id : string) (s : string) : M unit :=
  t ← strftime LOG_TIME;
  j ← get_job id;
  set_log id (job_log j +:+ log_line t s) ;;
  j ← get_job id;
  write_text (log_path id) (job_log j).

(** [subprocess.check_output(cmd, ...)] *)
Definition check_output (c : command) : M unit := fun w =>
  let w' := set_trace (fun t => t ++ [EvExec c]) w in
  match procs w c with
  | ExitZero => (Ok tt, w')
  | ExitNonZero msg => (Raise (CalledProcessError msg), w')
  | SpawnFailed e => (Raise e, w')
  end.

(** The [cert] dictionary of [run], in the order its keys are written. *)
Definition make_cert (j : job) (timestamp : string) : dict :=
  [("job_id", job_id j); ("os", job_os j); ("target", job_target j);
   ("action", job_action j); ("status", "success"); ("timestamp", timestamp)].

(** The key file is missing or does not hold a private key. *)
Definition key_unusable (w : world) : Prop :=
  match files w !! RSA_PRIV with
  | Some pem => load_pem_private_key pem = None
  | None => True
  end.

(** The part of [run] inside [try], up to the wipe command. *)
Definition run_action (id : string) : M unit :=
  j ← get_job id;
  if String.eqb (job_os j) "linux" then
    if String.eqb (job_action j) "luks_killslot" then
      let cmd := ["cryptsetup"; "luksKillSlot"; job_target j; "0"] in
      append_log id ("Running: " +:+ String.concat " " cmd) ;;
      check_output (Argv cmd)
    else if String.eqb (job_action j) "zero_header" then
      let cmd := ["dd"; "if=/dev/zero"; "of=" +:+ job_target j; "bs=1M"; "count=128"] in
      append_log id ("Running: " +:+ String.concat " " cmd) ;;
      check_output (Shell (String.concat " " cmd))
    else raise (Exception "unknown action")
  else if String.eqb (job_os j) "windows" then
    append_log id "Windows destructive actions must be performed manually. See logs for guidance." ;;
    raise (Exception "windows actions must be manual in this demo")
  else if String.eqb (job_os j) "macos" then
    append_log id "macOS actions must be performed via fdesetup/diskutil GUI or manual commands" ;;
    raise (Exception "macos actions must be manual in demo")
  else raise (Exception "unsupported os").

(** The part of [run] inside [try], after the wipe command. *)
Definition run_certify (id : string) : M unit :=
  append_log id "Wipe command completed successfully" ;;
  set_success id true ;;
  set_status id Finished ;;
  j ← get_job id;
  timestamp ← strftime "%Y-%m-%dT%H:%M:%SZ";
  let cert := make_cert j timestamp in
  sig ← sign_certificate cert;
  let cert_path := path_join CERT_DIR (id +:+ ".json") in
  mkdir_p CERT_DIR ;;
  open_wb cert_path ;;
  fwrite cert_path (utf8_encode (json_dumps false cert)) ;;
  let sig_path := path_join CERT_DIR (id +:+ ".sig") in
  open_wb sig_path ;;
  fwrite sig_path sig ;;
  set_certificate id cert_path ;;
  append_log id "Certificate generated".

(** The two [except] clauses of [run]. *)
Definition run_handler (id : string) (e : exn) : M unit :=
  match e with
  | CalledProcessError _ =>
      append_log id ("Command failed: " +:+ exn_str e) ;;
      set_status id Failed ;;
      set_success id false
  | _ =>
      append_log id ("Exception: " +:+ exn_str e) ;;
      set_status id Failed ;;
      set_success id false
  end.

(** [OSWipeJob.run], for the job object stored under [id]. *)
Definition run (id : string) : M unit :=
  set_status id Running ;;
  j ← get_job id;
  append_log id (start_msg j) ;;
  try_except (run_action id ;; run_certify id) (run_handler id).

(** [GET /status/{job_id}]: the reply's [status], [log] and [success]. *)
Definition api_status (id : string) : M (string * string * bool) := fun w =>
  match jobs w !! id with
  | None => (Raise (HTTPException 404 "job not found"), w)
  | Some j => (Ok (status_str (job_state j), job_log j, job_success j), w)
  end.

End Jobs.


(** ** A concrete instance of the library parameters

    Small stand-ins for the library code, used to run the program on
    concrete inputs. *)

(** An authenticated cipher in miniature: the plaintext followed by a
    16-byte tag made of the nonce and the key. *)
Definition toy_tag (k n : bytes) : bytes := take 16 (n ++ k ++ replicate 16 x00).

Definition toy_encrypt (k n p : bytes) : bytes := p ++ toy_tag k n.

Definition toy_decrypt (k n ct : bytes) : option bytes :=
  let m := length ct - 16 in
  if bool_decide (16 <= length ct /\ drop m ct = toy_tag k n)
  then Some (take m ct) else None.

(** A codec with one byte per character. *)
Definition toy_encode (s : string) : bytes := list_byte_of_string s.
Definition toy_decode (b : bytes) : option string := Some (string_of_list_byte b).

(** The text behind the last ["/"]. *)
Fixpoint toy_name_from (acc s : string) : string :=
  match s with
  | EmptyString => acc
  | String c s' =>
      if Ascii.eqb c "/"%char then toy_name_from EmptyString s'
      else toy_name_from (acc +:+ String c EmptyString) s'
  end.
Definition toy_name (s : string) : string := toy_name_from EmptyString s.

(** An empty machine: no files, a counting entropy tape, a clock that
    numbers its readings, every command succeeds. *)
Definition toy_world : world :=
  World ∅ ∅ (fun i => byte_of_N (N.of_nat i mod 256)) 0
        (fun _ k => String (ascii_of_nat (48 + k)) EmptyString) 0
        None (fun _ => ExitZero) [] ∅ [].

Definition toy_key : bytes := replicate 32 x02.
Definition toy_nonce : bytes := replicate 12 x01.

(** [toy_world] with a key file and an empty container. *)
Definition toy_store : world :=
  set_files (fun fs =>
      <["c.bin" := container_image toy_nonce (toy_encrypt toy_key toy_nonce [])]>
        (<["k.key" := toy_key]> fs))
    toy_world.


(** Two uploads stored under the same name. *)
Definition toy_twice : list (string * bytes) :=
  [("a.txt", [x01]); ("up/a.txt", [x02])].

(** Uploads with distinct stored names. *)
Definition toy_pairs : list (string * bytes) :=
  [("a.txt", [x68; x69]); ("docs/b.txt", [x01; x02; x03])].

(** [toy_world] with a key file and a container whose only record
    declares five content bytes while two follow. *)
Definition toy_short : world :=
  set_files (fun fs =>
      <["c.bin" := container_image toy_nonce
                     (toy_encrypt toy_key toy_nonce
                        (truncated_record (toy_encode "a.txt") 5 [x01; x02]))]>
        (<["k.key" := toy_key]> fs))
    toy_world.



(** [toy_world] with a three-byte key file in the key directory. *)
Definition toy_keys : world :=
  set_files (<["keys/k.key" := [x0a; x0b; x0c]]>) toy_world.


(** Signing in miniature: every non-empty PEM text is a key, and a
    signature is the key followed by the signed bytes. *)
Definition toy_load (pem : bytes) : option bytes :=
  match pem with
  | [] => None
  | _ => Some pem
  end.

Definition toy_sign (k d : bytes) : bytes := k ++ d.

(** [toy_world] with one queued job, as [POST /start_os_wipe] leaves it. *)
Definition toy_queued (os action : string) : world :=
  set_jobs (<["j1" := new_job "j1" os "/dev/sdx" action]>) toy_world.

(** [toy_queued] with a signing key in place. *)
Definition toy_signing (os action : string) : world :=
  set_files (<[RSA_PRIV := [x2d; x2d]]>) (toy_queued os action).


(** [toy_queued] on a machine where every command exits with status 1. *)
Definition toy_broken (os action : string) : world :=
  let w := toy_queued os action in
  World (files w) (dirs w) (entropy w) (drawn w) (clock w) (ticks w) (io_budget w)
        (fun _ => ExitNonZero "Command returned non-zero exit status 1.")
        (trace w) (jobs w) (timeline w).


(** * Properties *)

(** ** Integer codecs and slices *)

Lemma byte_of_N_to_N (n : N) : (n < 256)%N -> Byte.to_N (byte_of_N n) = n.
Proof.
  intros Hn. unfold byte_of_N.
  destruct (Byte.of_N n) as [b|] eqn:E.
  - by apply Byte.to_of_N.
  - apply Byte.of_N_None_iff in E. lia.
Qed.

Lemma length_be_digits (len : nat) (v : N) : length (be_digits len v) = len.
Proof.
  revert v. induction len as [|k IH]; intros v; simpl; [done|].
  rewrite length_app, IH. simpl. lia.
Qed.

Lemma int_from_bytes_snoc (l : bytes) (b : byte) :
  int_from_bytes (l ++ [b]) = (int_from_bytes l * 256 + Byte.to_N b)%N.
Proof. unfold int_from_bytes. by rewrite fold_left_app. Qed.

Lemma int_from_be_digits (len : nat) (v : N) :
  (v < 256 ^ N.of_nat len)%N -> int_from_bytes (be_digits len v) = v.
Proof.
  revert v. induction len as [|k IH]; intros v Hv.
  - simpl in *. unfold int_from_bytes. simpl. lia.
  - cbn [be_digits]. rewrite int_from_bytes_snoc.
    rewrite Nat2N.inj_succ, N.pow_succ_r' in Hv.
    rewrite IH.
    + rewrite byte_of_N_to_N by (apply N.mod_lt; lia).
      pose proof (N.div_mod v 256). lia.
    + apply N.Div0.div_lt_upper_bound. lia.
Qed.

Lemma int_to_bytes_Ok (len : nat) (v : N) (l : bytes) :
  int_to_bytes len v = Ok l ->
  length l = len /\ int_from_bytes l = v /\ (v < 256 ^ N.of_nat len)%N.
Proof.
  unfold int_to_bytes. destruct (N.ltb_spec v (256 ^ N.of_nat len)); [|done].
  intros [= <-]. split; [apply length_be_digits|]. split; [|done].
  by apply int_from_be_digits.
Qed.

Lemma slice_middle {A} (pre x post : list A) :
  slice (pre ++ x ++ post) (length pre) (length pre + length x) = x.
Proof.
  unfold slice. rewrite drop_app_length.
  replace (length pre + length x - length pre) with (length x) by lia.
  by rewrite take_app_length.
Qed.

Lemma slice_clamped {A} (pre x : list A) (j : nat) :
  length pre + length x <= j -> slice (pre ++ x) (length pre) j = x.
Proof.
  intros Hj. unfold slice. rewrite drop_app_length.
  apply take_ge. lia.
Qed.

(** ** The monad and the file system primitives *)

Lemma bind_ok {A B} (m : M A) (f : A -> M B) (w w' : world) (a : A) :
  m w = (Ok a, w') -> (m ≫= f) w = f a w'.
Proof. intros H. unfold mbind, M_bind. by rewrite H. Qed.

Lemma bind_raise {A B} (m : M A) (f : A -> M B) (w w' : world) (e : exn) :
  m w = (Raise e, w') -> (m ≫= f) w = (Raise e, w').
Proof. intros H. unfold mbind, M_bind. by rewrite H. Qed.

Lemma write_bytes_ok (w : world) (p : string) (d : bytes) :
  io_budget w = None -> p ∉ dirs w ->
  write_bytes p d w = (Ok tt, set_files (<[p := d]>) w).
Proof.
  intros Hb Hd. unfold write_bytes, open_wb, fwrite, mbind, M_bind.
  rewrite bool_decide_eq_false_2 by done.
  destruct w; simpl in *; subst. unfold set_io_budget, set_files; simpl.
  by rewrite lookup_insert_eq, insert_insert_eq.
Qed.

(** ** The container codec *)

Lemma MAGIC_bytes : MAGIC = [x43; x52; x59; x50; x54; x4f; x43; x4e; x54; x31].
Proof. reflexivity. Qed.

Lemma slice_at {A} (plain pre x post : list A) (i j : nat) :
  plain = pre ++ x ++ post -> i = length pre -> j = i + length x ->
  slice plain i j = x.
Proof. intros -> -> ->. apply slice_middle. Qed.

Lemma read_container_image (w : world) (p : string) (nonce ct : bytes) :
  files w !! p = Some (container_image nonce ct) -> length nonce < 256 ->
  read_container p w = (Ok (nonce, ct), w).
Proof.
  intros Hf Hn. unfold read_container.
  erewrite bind_ok; last by (unfold read_bytes; rewrite Hf).
  unfold container_image. rewrite MAGIC_bytes. cbn [length app].
  rewrite bool_decide_eq_true_2 by reflexivity.
  unfold slice. cbn [firstn skipn Nat.sub Nat.add].
  rewrite byte_of_N_to_N by lia. rewrite Nat2N.id.
  replace (11 + length nonce - 11) with (length nonce) by lia.
  cbn [firstn skipn Nat.sub Nat.add].
  rewrite take_0, drop_0, Nat.sub_0_r.
  by rewrite take_app_length, drop_app_length.
Qed.

(** Projections of an updated world. *)
Ltac unfold_world :=
  unfold set_files, set_dirs, set_drawn, set_ticks, set_io_budget, set_trace,
    set_jobs, set_timeline in *;
  cbn [files dirs entropy drawn clock ticks io_budget procs trace jobs timeline] in *.

Section ContainerFacts.

Variable aead_encrypt : bytes -> bytes -> bytes -> bytes.
Variable aead_decrypt : bytes -> bytes -> bytes -> option bytes.
Variable utf8_encode : string -> bytes.
Variable utf8_decode : bytes -> option string.
Variable path_name : string -> string.

(** Decryption inverts encryption under the same key and nonce. *)
Hypothesis aead_correct :
  forall k n p, aead_decrypt k n (aead_encrypt k n p) = Some p.
(** Decoding inverts encoding. *)
Hypothesis utf8_roundtrip : forall s, utf8_decode (utf8_encode s) = Some s.

#[local] Abbreviation rec_of r := (record_bytes (utf8_encode r.1) r.2).

Lemma length_record_bytes (f d : bytes) :
  length (record_bytes f d) = 10 + length f + length d.
Proof.
  unfold record_bytes. rewrite !length_app, !length_be_digits. lia.
Qed.

Lemma make_record_ok (f d : bytes) :
  (N.of_nat (length f) < 2 ^ 16)%N -> (N.of_nat (length d) < 2 ^ 64)%N ->
  make_record f d = Ok (record_bytes f d).
Proof.
  intros Hf Hd. unfold make_record, int_to_bytes.
  destruct (N.ltb_spec (N.of_nat (length f)) (256 ^ N.of_nat 2)) as [_|H];
    [|exfalso; change (256 ^ N.of_nat 2)%N with (2 ^ 16)%N in H; lia].
  destruct (N.ltb_spec (N.of_nat (length d)) (256 ^ N.of_nat 8)) as [_|H];
    [|exfalso; change (256 ^ N.of_nat 8)%N with (2 ^ 64)%N in H; lia].
  reflexivity.
Qed.

(** The four slices the loops take at a record header. *)
Lemma header_slices {A} (pre a b c tail : list A) :
  let plain := pre ++ a ++ b ++ c ++ tail in
  slice plain (length pre) (length pre + length a) = a
  /\ slice plain (length pre + length a) (length pre + length a + length b) = b
  /\ slice plain (length pre + length a + length b)
       (length pre + length a + length b + length c) = c
  /\ forall n, slice plain (length pre + length a + length b + length c)
                 (length pre + length a + length b + length c + n) = take n tail.
Proof.
  intros plain. repeat split.
  - by apply (slice_at _ pre a (b ++ c ++ tail)).
  - apply (slice_at _ (pre ++ a) b (c ++ tail)).
    + unfold plain. by rewrite <- !app_assoc.
    + by rewrite length_app.
    + done.
  - apply (slice_at _ (pre ++ a ++ b) c tail).
    + unfold plain. by rewrite <- !app_assoc.
    + rewrite !length_app. lia.
    + done.
  - intros n. unfold slice, plain.
    replace (pre ++ a ++ b ++ c ++ tail) with ((pre ++ a ++ b ++ c) ++ tail)
      by (by rewrite <- !app_assoc).
    replace (length pre + length a + length b + length c)
      with (length (pre ++ a ++ b ++ c)) by (rewrite !length_app; lia).
    rewrite drop_app_length. f_equal. lia.
Qed.

(** One iteration of the extraction loop at a record header: the name is
    decoded, the declared number of bytes, or as many as are left, is
    written, and the loop goes on behind the declared length. *)
Lemma extract_loop_header (fuel : nat) (outdir n : string) (pre tail : bytes)
    (dlen : N) (w : world) :
  (N.of_nat (length (utf8_encode n)) < 2 ^ 16)%N -> (dlen < 2 ^ 64)%N ->
  extract_loop utf8_decode (S fuel) outdir
    (pre ++ truncated_record (utf8_encode n) dlen tail) (length pre) w
  = (write_bytes (path_join outdir n) (take (N.to_nat dlen) tail) ;;
     extract_loop utf8_decode fuel outdir
       (pre ++ truncated_record (utf8_encode n) dlen tail)
       (length pre + 2 + length (utf8_encode n) + 8 + N.to_nat dlen)) w.
Proof.
  intros Hn Hd. unfold truncated_record.
  set (L1 := be_digits 2 (N.of_nat (length (utf8_encode n)))).
  set (L2 := be_digits 8 dlen).
  assert (HL1 : length L1 = 2) by apply length_be_digits.
  assert (HL2 : length L2 = 8) by apply length_be_digits.
  assert (V1 : int_from_bytes L1 = N.of_nat (length (utf8_encode n)))
    by (by apply int_from_be_digits).
  assert (V2 : int_from_bytes L2 = dlen) by (by apply int_from_be_digits).
  clearbody L1 L2.
  destruct (header_slices pre L1 (utf8_encode n) L2 tail) as (E1 & E2 & E3 & E4).
  rewrite HL1, HL2 in *.
  set (plain := pre ++ L1 ++ utf8_encode n ++ L2 ++ tail) in *.
  cbn [extract_loop].
  rewrite bool_decide_eq_true_2; last first.
  { unfold plain. rewrite !length_app. lia. }
  rewrite E1, V1, Nat2N.id, E2. unfold decode_name. rewrite utf8_roundtrip.
  rewrite E3, V2, E4. reflexivity.
Qed.

(** One iteration of the extraction loop on a well-formed record. *)
Lemma extract_loop_record (fuel : nat) (outdir : string) (pre post : bytes)
    (r : string * bytes) (w : world) :
  encodable utf8_encode r ->
  extract_loop utf8_decode (S fuel) outdir (pre ++ rec_of r ++ post) (length pre) w
  = (write_bytes (path_join outdir r.1) r.2 ;;
     extract_loop utf8_decode fuel outdir (pre ++ rec_of r ++ post)
       (length pre + length (rec_of r))) w.
Proof.
  intros [Hn Hd].
  assert (E : rec_of r ++ post
              = truncated_record (utf8_encode r.1) (N.of_nat (length r.2)) (r.2 ++ post)).
  { unfold record_bytes, truncated_record.
    generalize (be_digits 2 (N.of_nat (length (utf8_encode r.1)))).
    generalize (be_digits 8 (N.of_nat (length r.2))). intros L2 L1.
    by rewrite <- !app_assoc. }
  rewrite E, extract_loop_header by done.
  rewrite Nat2N.id, take_app_length, length_record_bytes.
  by replace (length pre + 2 + length (utf8_encode r.1) + 8 + length r.2)
    with (length pre + (10 + length (utf8_encode r.1) + length r.2)) by lia.
Qed.

Lemma bind_assoc {A B C} (m : M A) (f : A -> M B) (g : B -> M C) (w : world) :
  ((m ≫= f) ≫= g) w = (m ≫= (fun a => f a ≫= g)) w.
Proof. unfold mbind, M_bind. by destruct (m w) as [[a|e] w']. Qed.

Lemma bind_ext {A B} (m : M A) (f g : A -> M B) (w : world) :
  (forall a w', f a w' = g a w') -> (m ≫= f) w = (m ≫= g) w.
Proof. intros H. unfold mbind, M_bind. destruct (m w) as [[a|e] w']; [apply H|done]. Qed.

(** The extraction loop on a run of well-formed records performs their
    writes in order and goes on behind them. *)
Lemma extract_loop_archive (outdir : string) (rs : list (string * bytes)) :
  forall (fuel : nat) (pre post : bytes) (w : world),
  Forall (encodable utf8_encode) rs ->
  extract_loop utf8_decode (length rs + fuel) outdir
    (pre ++ archive utf8_encode rs ++ post) (length pre) w
  = (write_records outdir rs ;;
     extract_loop utf8_decode fuel outdir (pre ++ archive utf8_encode rs ++ post)
       (length pre + length (archive utf8_encode rs))) w.
Proof.
  induction rs as [|r rs IH]; intros fuel pre post w Hrs.
  - cbn [archive write_records length Nat.add app]. by rewrite Nat.add_0_r.
  - apply Forall_cons in Hrs as [Hr Hrs].
    cbn [archive write_records length Nat.add].
    rewrite <- (app_assoc (rec_of r)).
    rewrite extract_loop_record by done.
    rewrite bind_assoc. apply bind_ext. intros [] w'.
    specialize (IH fuel (pre ++ rec_of r) post w' Hrs).
    rewrite <- !app_assoc in IH. rewrite length_app in IH.
    rewrite IH. by rewrite length_app, Nat.add_assoc.
Qed.

Lemma extract_loop_end (fuel : nat) (outdir : string) (plain : bytes) (idx : nat)
    (w : world) :
  length plain <= idx ->
  extract_loop utf8_decode fuel outdir plain idx w = (Ok true, w).
Proof.
  intros H. destruct fuel; cbn [extract_loop];
    by rewrite bool_decide_eq_false_2 by lia.
Qed.

Lemma write_records_ok (outdir : string) (rs : list (string * bytes)) :
  forall w : world,
  io_budget w = None ->
  Forall (fun r => path_join outdir r.1 ∉ dirs w) rs ->
  write_records outdir rs w = (Ok tt, set_files (files_after outdir rs) w).
Proof.
  induction rs as [|r rs IH]; intros w Hb Hd.
  - cbn. by destruct w.
  - apply Forall_cons in Hd as [Hr Hd]. cbn [write_records].
    erewrite bind_ok; last by apply write_bytes_ok.
    rewrite IH; [by destruct w|by destruct w|by destruct w].
Qed.

Lemma append_self (d s : string) : d = d +:+ s -> s = EmptyString.
Proof.
  induction d as [|c d IH]; cbn; [done|]. intros [= H]. auto.
Qed.

Lemma path_join_segment (d n : string) :
  segment n = true -> n <> EmptyString -> path_join d n = d +:+ "/" +:+ n.
Proof.
  destruct n as [|c n]; [done|]. cbn [segment path_join]. intros H _.
  apply andb_true_iff in H as [H _].
  destruct (Ascii.eqb_spec c "/"%char) as [->|Hc]; [done|].
  destruct c as [[] [] [] [] [] [] [] []]; try reflexivity. by destruct Hc.
Qed.

Lemma path_join_inj (d n1 n2 : string) :
  segment n1 = true -> segment n2 = true ->
  path_join d n1 = path_join d n2 -> n1 = n2.
Proof.
  intros H1 H2.
  destruct (decide (n1 = EmptyString)) as [->|N1];
    destruct (decide (n2 = EmptyString)) as [->|N2]; [done|..].
  - rewrite (path_join_segment d n2) by done. cbn [path_join].
    intros H%append_self. discriminate H.
  - rewrite (path_join_segment d n1) by done. cbn [path_join].
    intros H. symmetry in H. apply append_self in H. discriminate H.
  - rewrite !path_join_segment by done.
    intros H%(inj (String.append d)). by injection H.
Qed.

Lemma files_after_snoc (outdir : string) (rs : list (string * bytes))
    (r : string * bytes) (fs : gmap string bytes) :
  files_after outdir (rs ++ [r]) fs
  = <[path_join outdir r.1 := r.2]> (files_after outdir rs fs).
Proof. unfold files_after. by rewrite foldl_app. Qed.

(** After the writes, a path of the output directory holds the content
    of the last record stored under its name. *)
Lemma files_after_lookup (outdir n : string) (rs : list (string * bytes))
    (fs : gmap string bytes) :
  segment n = true -> Forall (fun r => segment r.1 = true) rs ->
  files_after outdir rs fs !! path_join outdir n
  = match last_content n rs with
    | Some d => Some d
    | None => fs !! path_join outdir n
    end.
Proof.
  intros Hn. revert fs. induction rs as [|r rs IH]; intros fs Hrs; [done|].
  apply Forall_cons in Hrs as [Hr Hrs].
  cbn [last_content]. change (files_after outdir (r :: rs) fs)
    with (files_after outdir rs (<[path_join outdir r.1 := r.2]> fs)).
  rewrite IH by done. destruct (last_content n rs) as [d|]; [done|].
  destruct (decide (r.1 = n)) as [->|Hne].
  - by rewrite lookup_insert_eq.
  - rewrite lookup_insert_ne; [done|]. intros H. apply Hne.
    by apply (path_join_inj outdir).
Qed.

Lemma last_content_unique (rs : list (string * bytes)) (i : nat)
    (r : string * bytes) :
  rs !! i = Some r ->
  (forall j r', i < j -> rs !! j = Some r' -> r'.1 <> r.1) ->
  last_content r.1 rs = Some r.2.
Proof.
  revert i. induction rs as [|r0 rs IH]; intros i Hi Hlater; [done|].
  cbn [last_content]. destruct i as [|i]; cbn in Hi.
  - injection Hi as ->.
    assert (last_content r.1 rs = None) as ->.
    { clear IH. assert (Hall : forall j r', rs !! j = Some r' -> r'.1 <> r.1).
      { intros j r' Hj. apply (Hlater (S j)); [lia|done]. }
      clear Hlater. induction rs as [|r1 rs IH]; [done|]. cbn [last_content].
      rewrite IH; [|intros j r' Hj; by apply (Hall (S j))].
      rewrite decide_False; [done|]. by apply (Hall 0). }
    by rewrite decide_True.
  - erewrite IH; [done|done|]. intros j r' Hj Hr'. apply (Hlater (S j)); [lia|done].
Qed.

Lemma last_content_elem (rs : list (string * bytes)) (r : string * bytes) :
  r ∈ rs -> exists r', r' ∈ rs /\ r'.1 = r.1 /\ last_content r.1 rs = Some r'.2.
Proof.
  induction rs as [|r0 rs IH]; intros Hr; [by apply elem_of_nil in Hr|].
  cbn [last_content].
  destruct (last_content r.1 rs) as [d|] eqn:E.
  - destruct (decide (r ∈ rs)) as [Hin|Hnin].
    + destruct (IH Hin) as (r' & ? & ? & ?). exists r'. split; [by right|].
      split; [done|]. congruence.
    + clear IH Hr Hnin. revert d E. induction rs as [|r1 rs IH]; intros d E; [done|].
      cbn [last_content] in E. destruct (last_content r.1 rs) as [d'|] eqn:E'.
      * destruct (IH d' eq_refl) as (r' & Hr' & ? & ?).
        exists r'. split; [|split; [done|congruence]].
        apply elem_of_cons in Hr' as [->|Hr']; [by left|]. right. by right.
      * destruct (decide (r1.1 = r.1)) as [Heq|]; [|done].
        exists r1. split; [right; by left|]. split; [done|]. congruence.
  - apply elem_of_cons in Hr as [->|Hr].
    + exists r0. rewrite decide_True by done. split; [by left|done].
    + destruct (IH Hr) as (? & ? & ? & ?). congruence.
Qed.

Lemma open_wb_ok (w : world) (p : string) :
  p ∉ dirs w -> open_wb p w = (Ok tt, set_files (<[p := []]>) w).
Proof. intros Hd. unfold open_wb. by rewrite bool_decide_eq_false_2. Qed.

Lemma fwrite_ok (w : world) (p : string) (d : bytes) :
  io_budget w = None ->
  fwrite p d w
  = (Ok tt, set_files (fun fs => <[p := default [] (fs !! p) ++ d]> fs) w).
Proof.
  intros Hb. unfold fwrite. rewrite Hb. destruct w. cbn [io_budget] in Hb. subst.
  reflexivity.
Qed.

Lemma write_container_ok (w : world) (cp : string) (nonce ct : bytes) :
  io_budget w = None -> cp ∉ dirs w ->
  write_container cp nonce ct w
  = (Ok tt, set_files (<[cp := container_image nonce ct]>) w).
Proof.
  intros Hb Hd. unfold write_container.
  erewrite bind_ok; last by apply open_wb_ok.
  erewrite bind_ok; last by (apply fwrite_ok; destruct w).
  erewrite bind_ok; last by (apply fwrite_ok; destruct w).
  erewrite bind_ok; last by (apply fwrite_ok; destruct w).
  rewrite fwrite_ok by (by destruct w).
  destruct w. unfold set_files. cbn [files dirs entropy drawn clock ticks io_budget
                                       procs trace jobs timeline].
  rewrite !lookup_insert_eq, !insert_insert_eq. cbn [default].
  unfold container_image. generalize (byte_of_N (N.of_nat (length nonce))).
  intros b. generalize MAGIC. intros m.
  unfold id. rewrite app_nil_l. by rewrite <- !app_assoc.
Qed.

Lemma length_token (w : world) (n : nat) :
  length (map (entropy w) (seq (drawn w) n)) = n.
Proof. by rewrite length_map, length_seq. Qed.

(** What a successful [add_file_to_container] does to the world. *)
Lemma add_file_ok (w : world) (cp kp fn : string) (k nonce ct plain c : bytes) :
  files w !! kp = Some k ->
  (length k = 16 \/ length k = 24 \/ length k = 32) ->
  files w !! cp = Some (container_image nonce ct) ->
  8 <= length nonce <= 128 ->
  aead_decrypt k nonce ct = Some plain ->
  encodable utf8_encode (stored path_name (fn, c)) ->
  io_budget w = None -> cp ∉ dirs w ->
  let nonce' := map (entropy w) (seq (drawn w) 12) in
  add_file_to_container aead_encrypt aead_decrypt utf8_encode path_name cp kp fn c w
  = (Ok tt,
     set_files (<[cp := container_image nonce'
                          (aead_encrypt k nonce'
                             (plain ++ rec_of (stored path_name (fn, c))))]>)
       (set_drawn (fun d => d + 12) w)).
Proof.
  intros Hk Hlen Hc Hn Hdec [He1 He2] Hb Hd nonce'.
  unfold add_file_to_container.
  erewrite bind_ok; last by (unfold load_key, read_bytes; rewrite Hk).
  erewrite bind_ok; last by (unfold AESGCM; rewrite bool_decide_eq_true_2 by done).
  erewrite bind_ok; last by (apply read_container_image; [done|lia]).
  cbv beta iota.
  erewrite bind_ok; last first.
  { unfold aes_decrypt, nonce_ok. rewrite bool_decide_eq_true_2 by done.
    by rewrite Hdec. }
  erewrite bind_ok; last first.
  { unfold lift. by rewrite make_record_ok. }
  erewrite bind_ok; last by reflexivity.
  erewrite bind_ok; last first.
  { unfold aes_encrypt, nonce_ok.
    rewrite bool_decide_eq_true_2; [reflexivity|]. rewrite length_token. lia. }
  rewrite write_container_ok; [|by destruct w|by destruct w]. by destruct w.
Qed.

#[local] Abbreviation add_file :=
  (add_file_to_container aead_encrypt aead_decrypt utf8_encode path_name).
#[local] Abbreviation add_all :=
  (add_files aead_encrypt aead_decrypt utf8_encode path_name).
#[local] Abbreviation holding := (holds aead_decrypt).
#[local] Abbreviation arch := (archive utf8_encode).

Lemma archive_app (rs1 rs2 : list (string * bytes)) :
  arch (rs1 ++ rs2) = arch rs1 ++ arch rs2.
Proof.
  induction rs1 as [|r rs1 IH]; [done|]. cbn [app archive].
  by rewrite IH, app_assoc.
Qed.

(** Adding one file keeps the container well formed; only the container
    file and the entropy position change. *)
Lemma add_file_holds (w : world) (cp kp fn : string) (plain c : bytes) :
  holding w cp kp plain ->
  encodable utf8_encode (stored path_name (fn, c)) ->
  exists w',
    add_file cp kp fn c w = (Ok tt, w')
    /\ holding w' cp kp (plain ++ rec_of (stored path_name (fn, c)))
    /\ dirs w' = dirs w
    /\ (forall p, p <> cp -> files w' !! p = files w !! p).
Proof.
  intros (k & nonce & ct & Hk & Hlen & Hc & Hn & Hdec & Hb & Hd & Hne) Henc.
  eexists. split.
  { eapply add_file_ok; eauto. lia. }
  split; [|split].
  - exists k, (map (entropy w) (seq (drawn w) 12)).
    exists (aead_encrypt k (map (entropy w) (seq (drawn w) 12))
              (plain ++ rec_of (stored path_name (fn, c)))).
    destruct w; unfold_world.
    split; [by rewrite lookup_insert_ne|].
    split; [done|].
    split; [by rewrite lookup_insert_eq|].
    split; [by rewrite length_map, length_seq|].
    split; [apply aead_correct|done].
  - by destruct w.
  - intros p Hp. destruct w; unfold_world. by rewrite lookup_insert_ne.
Qed.

Lemma add_files_holds (cp kp : string) (pairs : list (string * bytes)) :
  forall (w : world) (rs0 : list (string * bytes)),
  holding w cp kp (arch rs0) ->
  Forall (encodable utf8_encode) (map (stored path_name) pairs) ->
  exists w',
    add_all cp kp pairs w = (Ok tt, w')
    /\ holding w' cp kp (arch (rs0 ++ map (stored path_name) pairs))
    /\ dirs w' = dirs w
    /\ (forall p, p <> cp -> files w' !! p = files w !! p).
Proof.
  induction pairs as [|[fn c] ps IH]; intros w rs0 Hh Henc.
  - exists w. cbn. by rewrite app_nil_r.
  - cbn [map] in Henc. apply Forall_cons in Henc as [He Henc].
    destruct (add_file_holds w cp kp fn _ c Hh He) as (w1 & E1 & H1 & D1 & F1).
    assert (H1' : holding w1 cp kp (arch (rs0 ++ [stored path_name (fn, c)]))).
    { rewrite archive_app. cbn [archive]. by rewrite app_nil_r. }
    destruct (IH w1 _ H1' Henc) as (w2 & E2 & H2 & D2 & F2).
    exists w2. split; [|split; [|split]].
    + cbn [add_files]. by erewrite bind_ok by exact E1.
    + cbn [map]. by rewrite <- app_assoc in H2.
    + congruence.
    + intros p Hp. rewrite F2, F1; done.
Qed.

Lemma length_archive_ge (rs : list (string * bytes)) :
  length rs <= length (arch rs).
Proof.
  induction rs as [|r rs IH]; [done|]. cbn [archive length].
  rewrite length_app, length_record_bytes. lia.
Qed.

(** Extraction of a container holding the records [rs]: every record is
    written, in order, and the call returns normally. *)
Lemma extract_all_archive (w : world) (cp kp outdir : string)
    (rs : list (string * bytes)) :
  holding w cp kp (arch rs) ->
  Forall (encodable utf8_encode) rs ->
  files w !! outdir = None ->
  Forall (fun r => path_join outdir r.1 ∉ ({[outdir]} ∪ dirs w : gset string)) rs ->
  extract_all aead_decrypt utf8_decode cp kp outdir w
  = (Ok tt, set_files (files_after outdir rs)
              (set_dirs (fun ds => {[outdir]} ∪ ds) w)).
Proof.
  intros (k & nonce & ct & Hk & Hlen & Hc & Hn & Hdec & Hb & Hd & Hne) Henc Ho Hdirs.
  unfold extract_all.
  erewrite bind_ok; last first.
  { unfold mkdir_p. rewrite Ho.
    rewrite bool_decide_eq_false_2; [reflexivity|]. by intros [? ?]. }
  set (w1 := set_dirs _ w).
  erewrite bind_ok; last by (unfold load_key, read_bytes; cbn; rewrite Hk).
  erewrite bind_ok; last by (unfold AESGCM; rewrite bool_decide_eq_true_2 by done).
  erewrite bind_ok; last by (apply read_container_image; [done|lia]).
  cbv beta iota.
  erewrite bind_ok; last first.
  { unfold aes_decrypt, nonce_ok. rewrite bool_decide_eq_true_2 by lia.
    by rewrite Hdec. }
  erewrite bind_ok; last first.
  { pose proof (length_archive_ge rs) as Hge.
    replace (length (arch rs)) with (length rs + (length (arch rs) - length rs)) at 1 by lia.
    pose proof (extract_loop_archive outdir rs (length (arch rs) - length rs) [] [] w1 Henc) as E.
    rewrite app_nil_r in E. cbn [app length Nat.add] in E. rewrite E.
    erewrite bind_ok; last by (apply write_records_ok; [done|done]).
    apply extract_loop_end. lia. }
  reflexivity.
Qed.

Lemma last_content_app (n : string) (rs1 rs2 : list (string * bytes)) :
  last_content n (rs1 ++ rs2)
  = match last_content n rs2 with
    | Some d => Some d
    | None => last_content n rs1
    end.
Proof.
  induction rs1 as [|r rs1 IH]; cbn [app last_content].
  - by destruct (last_content n rs2).
  - rewrite IH. by destruct (last_content n rs2).
Qed.

(** C2, as amended.  After the pairs were added to a well-formed
    container, [extract_all] returns normally and the file under a
    pair's stored name holds the content of the last pair of the
    sequence stored under that name; it is the pair's own content when
    no later pair has the same stored name. *)
Theorem extract_after_add (w : world) (cp kp outdir : string)
    (rs0 pairs : list (string * bytes)) :
  holds aead_decrypt w cp kp (archive utf8_encode rs0) ->
  Forall (encodable utf8_encode) (rs0 ++ map (stored path_name) pairs) ->
  files w !! outdir = None ->
  Forall (fun r => segment r.1 = true
                   /\ path_join outdir r.1 ∉ ({[outdir]} ∪ dirs w : gset string))
         (rs0 ++ map (stored path_name) pairs) ->
  exists w',
    (add_files aead_encrypt aead_decrypt utf8_encode path_name cp kp pairs ;;
     extract_all aead_decrypt utf8_decode cp kp outdir) w = (Ok tt, w')
    /\ forall i up, pairs !! i = Some up ->
         files w' !! path_join outdir (path_name up.1)
         = last_content (path_name up.1) (map (stored path_name) pairs)
         /\ ((forall j up', i < j -> pairs !! j = Some up' ->
                path_name up'.1 <> path_name up.1) ->
             files w' !! path_join outdir (path_name up.1) = Some up.2).
Proof.
  intros Hh Henc Ho Hall.
  apply Forall_app in Henc as Henc2. destruct Henc2 as [_ Hencp].
  destruct (add_files_holds cp kp pairs w rs0 Hh Hencp) as (w1 & E1 & H1 & D1 & F1).
  assert (Hoc : outdir <> cp).
  { destruct Hh as (? & ? & ? & _ & _ & Hc & _). intros ->. congruence. }
  eexists. split.
  { erewrite bind_ok by exact E1.
    apply extract_all_archive; [done|done|by rewrite F1|].
    rewrite D1. eapply Forall_impl; [exact Hall|]. by intros r [_ ?]. }
  intros i up Hi.
  assert (Hseg : Forall (fun r => segment r.1 = true) (rs0 ++ map (stored path_name) pairs)).
  { eapply Forall_impl; [exact Hall|]. by intros r [? _]. }
  assert (Hin : stored path_name up ∈ map (stored path_name) pairs).
  { apply list_elem_of_fmap. exists up. split; [done|]. by eapply list_elem_of_lookup_2. }
  assert (Hsegn : segment (path_name up.1) = true).
  { rewrite Forall_forall in Hseg. apply (Hseg (stored path_name up)).
    apply elem_of_app. by right. }
  assert (E : files (set_files (files_after outdir (rs0 ++ map (stored path_name) pairs))
                      (set_dirs (fun ds => {[outdir]} ∪ ds) w1))
              !! path_join outdir (path_name up.1)
              = last_content (path_name up.1) (map (stored path_name) pairs)).
  { cbn [files set_files]. rewrite files_after_lookup by done.
    rewrite last_content_app.
    destruct (last_content_elem _ _ Hin) as (r' & _ & _ & El).
    cbn [stored fst] in El. by rewrite El. }
  split; [exact E|]. intros Hlater. rewrite E.
  apply (last_content_unique (map (stored path_name) pairs) i (stored path_name up)).
  - by rewrite list_lookup_fmap, Hi.
  - intros j r' Hij Hj. rewrite list_lookup_fmap in Hj.
    destruct (pairs !! j) as [up'|] eqn:Ej; [|done]. injection Hj as <-.
    cbn [stored fst]. by eapply Hlater.
Qed.

(** The extraction loop on a last record that declares more content
    than is left: the bytes that are left are written and the loop
    ends. *)
Lemma extract_loop_truncated (fuel : nat) (outdir n : string) (pre rest : bytes)
    (dlen : N) (w : world) :
  (N.of_nat (length (utf8_encode n)) < 2 ^ 16)%N -> (dlen < 2 ^ 64)%N ->
  length rest < N.to_nat dlen ->
  extract_loop utf8_decode (S fuel) outdir
    (pre ++ truncated_record (utf8_encode n) dlen rest) (length pre) w
  = (write_bytes (path_join outdir n) rest ;; mret true) w.
Proof.
  intros Hn Hd Hrest. rewrite extract_loop_header by done.
  rewrite take_ge by lia.
  apply bind_ext. intros [] w'. apply extract_loop_end.
  unfold truncated_record. rewrite !length_app, !length_be_digits. lia.
Qed.

Lemma extract_all_via_loop (w w2 : world) (cp kp outdir : string) (plain : bytes) :
  holding w cp kp plain ->
  files w !! outdir = None ->
  extract_loop utf8_decode (length plain) outdir plain 0
    (set_dirs (fun ds => {[outdir]} ∪ ds) w) = (Ok true, w2) ->
  extract_all aead_decrypt utf8_decode cp kp outdir w = (Ok tt, w2).
Proof.
  intros (k & nonce & ct & Hk & Hlen & Hc & Hn & Hdec & Hb & Hd & Hne) Ho Hloop.
  unfold extract_all.
  erewrite bind_ok; last first.
  { unfold mkdir_p. rewrite Ho.
    rewrite bool_decide_eq_false_2; [reflexivity|]. by intros [? ?]. }
  erewrite bind_ok; last by (unfold load_key, read_bytes; cbn; rewrite Hk).
  erewrite bind_ok; last by (unfold AESGCM; rewrite bool_decide_eq_true_2 by done).
  erewrite bind_ok; last by (apply read_container_image; [done|lia]).
  cbv beta iota.
  erewrite bind_ok; last first.
  { unfold aes_decrypt, nonce_ok. rewrite bool_decide_eq_true_2 by lia.
    by rewrite Hdec. }
  by erewrite bind_ok by exact Hloop.
Qed.

(** C4, as amended.  The loop of [extract_all] checks no declared length
    against what is left of the plaintext: on a container whose last
    record declares more content than follows, the call returns
    normally, having written every earlier record and, under the last
    record's name, the bytes that were left. *)
Theorem extract_all_truncated (w : world) (cp kp outdir n : string)
    (rs : list (string * bytes)) (dlen : N) (rest : bytes) :
  holds aead_decrypt w cp kp
    (archive utf8_encode rs ++ truncated_record (utf8_encode n) dlen rest) ->
  Forall (encodable utf8_encode) rs ->
  (N.of_nat (length (utf8_encode n)) < 2 ^ 16)%N -> (dlen < 2 ^ 64)%N ->
  length rest < N.to_nat dlen ->
  files w !! outdir = None ->
  Forall (fun r => path_join outdir r.1 ∉ ({[outdir]} ∪ dirs w : gset string))
         (rs ++ [(n, rest)]) ->
  extract_all aead_decrypt utf8_decode cp kp outdir w
  = (Ok tt, set_files (files_after outdir (rs ++ [(n, rest)]))
              (set_dirs (fun ds => {[outdir]} ∪ ds) w)).
Proof.
  intros Hh Henc Hn Hd Hrest Ho Hdirs.
  apply Forall_app in Hdirs as [Hdrs Hdn].
  rewrite Forall_singleton in Hdn. cbn [fst] in Hdn.
  eapply extract_all_via_loop; [exact Hh|exact Ho|].
  set (w1 := set_dirs _ w).
  set (tr := truncated_record (utf8_encode n) dlen rest).
  assert (Hb1 : io_budget w1 = None).
  { destruct Hh as (? & ? & ? & _ & _ & _ & _ & _ & Hb & _). by destruct w. }
  pose proof (length_archive_ge rs) as Hge.
  assert (Htr : length tr = 10 + length (utf8_encode n) + length rest).
  { unfold tr, truncated_record. rewrite !length_app, !length_be_digits. lia. }
  rewrite length_app.
  replace (length (arch rs) + length tr)
    with (length rs + S (length (arch rs) - length rs + length tr - 1)) by lia.
  pose proof (extract_loop_archive outdir rs
                (S (length (arch rs) - length rs + length tr - 1)) [] tr w1 Henc) as E.
  cbn [app length Nat.add] in E. rewrite E. clear E.
  erewrite bind_ok; last by (apply write_records_ok; [done|done]).
  pose proof (extract_loop_truncated (length (arch rs) - length rs + length tr - 1)
                outdir n (arch rs) rest dlen
                (set_files (files_after outdir rs) w1) Hn Hd Hrest) as E.
  fold tr in E. rewrite E. clear E.
  erewrite bind_ok; last first.
  { apply write_bytes_ok; subst w1; destruct w; unfold_world; done. }
  subst w1. destruct w; unfold_world. unfold mret, M_ret.
  by rewrite files_after_snoc.
Qed.

(** *** What a failed or successful call leaves behind *)

Lemma bind_inv {A B} (m : M A) (f : A -> M B) (w w' : world) (r : result B) :
  (m ≫= f) w = (r, w') ->
  (exists a w1, m w = (Ok a, w1) /\ f a w1 = (r, w'))
  \/ (exists e, m w = (Raise e, w') /\ r = Raise e).
Proof.
  unfold mbind, M_bind. destruct (m w) as [[a|e] w1]; intros H.
  - left. eauto.
  - right. injection H as <- <-. eauto.
Qed.

(** The steps of [add_file_to_container] before the rewrite only read. *)
Lemma read_bytes_same {p : string} {w w' : world} {r : result bytes} :
  read_bytes p w = (r, w') -> w' = w.
Proof.
  unfold read_bytes. destruct (files w !! p); [by intros [= _ <-]|].
  case_bool_decide; by intros [= _ <-].
Qed.

Lemma AESGCM_same {k : bytes} {w w' : world} {r : result bytes} :
  AESGCM k w = (r, w') -> w' = w.
Proof. unfold AESGCM. case_bool_decide; by intros [= _ <-]. Qed.

Lemma read_container_same {p : string} {w w' : world} {r : result (bytes * bytes)} :
  read_container p w = (r, w') -> w' = w.
Proof.
  unfold read_container. intros H. apply bind_inv in H as [(raw & w1 & E & H)|(e & E & _)].
  - apply read_bytes_same in E as ->. case_bool_decide.
    + destruct (slice raw 10 11) as [|b [|b' l]]; by injection H as _ <-.
    + by injection H as _ <-.
  - by apply read_bytes_same in E.
Qed.

Lemma aes_decrypt_same {aes nonce ct : bytes} {w w' : world} {r : result bytes} :
  aes_decrypt aead_decrypt aes nonce ct w = (r, w') -> w' = w.
Proof.
  unfold aes_decrypt. destruct (nonce_ok nonce); [|by intros [= _ <-]].
  destruct (aead_decrypt aes nonce ct); by intros [= _ <-].
Qed.

Lemma aes_encrypt_same {aes nonce data : bytes} {w w' : world} {r : result bytes} :
  aes_encrypt aead_encrypt aes nonce data w = (r, w') -> w' = w.
Proof. unfold aes_encrypt. destruct (nonce_ok nonce); by intros [= _ <-]. Qed.

(** [fwrite] and [open_wb] change the file they are given and nothing
    else of the file system. *)
Lemma fwrite_frame (cp : string) (data : bytes) (w w' : world) (r : result unit) :
  fwrite cp data w = (r, w') ->
  dirs w' = dirs w /\ drawn w' = drawn w /\ entropy w' = entropy w
  /\ forall p, p <> cp -> files w' !! p = files w !! p.
Proof.
  unfold fwrite. destruct (io_budget w) as [[|n]|]; intros [= _ <-]; destruct w; unfold_world;
    repeat split; try done; intros p Hp; by rewrite lookup_insert_ne.
Qed.

Lemma open_wb_frame (cp : string) (w w' : world) (r : result unit) :
  open_wb cp w = (r, w') ->
  dirs w' = dirs w /\ drawn w' = drawn w /\ entropy w' = entropy w
  /\ forall p, p <> cp -> files w' !! p = files w !! p.
Proof.
  unfold open_wb. case_bool_decide; intros [= _ <-]; destruct w; unfold_world;
    repeat split; try done; intros p Hp; by rewrite lookup_insert_ne.
Qed.

Lemma write_container_frame (cp : string) (nonce ct : bytes) (w w' : world)
    (r : result unit) :
  write_container cp nonce ct w = (r, w') ->
  dirs w' = dirs w /\ drawn w' = drawn w /\ entropy w' = entropy w
  /\ forall p, p <> cp -> files w' !! p = files w !! p.
Proof.
  unfold write_container. intros H.
  apply bind_inv in H as [([] & w1 & E1 & H)|(e & E & _)];
    [apply open_wb_frame in E1 as (D1 & R1 & T1 & F1)|by apply open_wb_frame in E].
  apply bind_inv in H as [([] & w2 & E2 & H)|(e & E & _)];
    [apply fwrite_frame in E2 as (D2 & R2 & T2 & F2)
    |apply fwrite_frame in E as (D2 & R2 & T2 & F2)]; cycle 1.
  { repeat split; try congruence. intros p Hp. by rewrite F2, F1. }
  apply bind_inv in H as [([] & w3 & E3 & H)|(e & E & _)];
    [apply fwrite_frame in E3 as (D3 & R3 & T3 & F3)
    |apply fwrite_frame in E as (D3 & R3 & T3 & F3)]; cycle 1.
  { repeat split; try congruence. intros p Hp. by rewrite F3, F2, F1. }
  apply bind_inv in H as [([] & w4 & E4 & H)|(e & E & _)];
    [apply fwrite_frame in E4 as (D4 & R4 & T4 & F4)
    |apply fwrite_frame in E as (D4 & R4 & T4 & F4)]; cycle 1.
  { repeat split; try congruence. intros p Hp. by rewrite F4, F3, F2, F1. }
  apply fwrite_frame in H as (D5 & R5 & T5 & F5).
  repeat split; try congruence. intros p Hp. by rewrite F5, F4, F3, F2, F1.
Qed.




(** What a successful rewrite leaves in the container file. *)
Lemma fwrite_Ok (cp : string) (data : bytes) (w w' : world) :
  fwrite cp data w = (Ok tt, w') ->
  files w' !! cp = Some (default [] (files w !! cp) ++ data).
Proof.
  unfold fwrite. destruct (io_budget w) as [[|n]|]; intros [= <-]; destruct w; unfold_world;
    by rewrite lookup_insert_eq.
Qed.

Lemma write_container_Ok (cp : string) (nonce ct : bytes) (w w' : world) :
  write_container cp nonce ct w = (Ok tt, w') ->
  files w' !! cp = Some (container_image nonce ct).
Proof.
  unfold write_container. intros H.
  apply bind_inv in H as [([] & w1 & E1 & H)|(e & _ & E)]; [|done].
  apply bind_inv in H as [([] & w2 & E2 & H)|(e & _ & E)]; [|done].
  apply bind_inv in H as [([] & w3 & E3 & H)|(e & _ & E)]; [|done].
  apply bind_inv in H as [([] & w4 & E4 & H)|(e & _ & E)]; [|done].
  assert (F1 : files w1 !! cp = Some []).
  { unfold open_wb in E1. case_bool_decide; [done|]. injection E1 as <-.
    destruct w; unfold_world. by rewrite lookup_insert_eq. }
  apply fwrite_Ok in E2, E3, E4, H.
  rewrite F1 in E2. rewrite E2 in E3. rewrite E3 in E4. rewrite E4 in H.
  rewrite H.
  repeat match goal with
         | |- context [default ?d (Some ?x)] => change (default d (Some x)) with x
         end.
  unfold container_image. generalize (byte_of_N (N.of_nat (length nonce))).
  intros b. generalize MAGIC. intros m.
  rewrite app_nil_l. by rewrite <- !app_assoc.
Qed.

Lemma path_exists_same {p : string} {w w' : world} {r : result bool} :
  path_exists p w = (r, w') -> w' = w.
Proof. unfold path_exists. by intros [= _ <-]. Qed.

Lemma write_bytes_frame (p : string) (data : bytes) (w w' : world) (r : result unit) :
  write_bytes p data w = (r, w') ->
  drawn w' = drawn w /\ entropy w' = entropy w.
Proof.
  unfold write_bytes. intros H.
  apply bind_inv in H as [([] & w1 & E1 & H)|(e & E & _)].
  - apply open_wb_frame in E1 as (_ & R1 & T1 & _).
    apply fwrite_frame in H as (_ & R2 & T2 & _). split; congruence.
  - apply open_wb_frame in E as (_ & R1 & T1 & _). done.
Qed.

(** What the helpers of the encryption return. *)
Lemma AESGCM_Ok (k aes : bytes) (w w' : world) :
  AESGCM k w = (Ok aes, w') -> aes = k.
Proof. unfold AESGCM. case_bool_decide; [by intros [= <- _]|done]. Qed.

Lemma aes_encrypt_Ok (aes nonce data ct : bytes) (w w' : world) :
  aes_encrypt aead_encrypt aes nonce data w = (Ok ct, w') ->
  ct = aead_encrypt aes nonce data.
Proof. unfold aes_encrypt. destruct (nonce_ok nonce); [by intros [= <- _]|done]. Qed.

Lemma aes_decrypt_Ok (aes nonce ct plain : bytes) (w w' : world) :
  aes_decrypt aead_decrypt aes nonce ct w = (Ok plain, w') ->
  aead_decrypt aes nonce ct = Some plain.
Proof.
  unfold aes_decrypt. destruct (nonce_ok nonce); [|done].
  destruct (aead_decrypt aes nonce ct); [by intros [= <- _]|done].
Qed.

Lemma read_bytes_Ok (p : string) (b : bytes) (w w' : world) :
  read_bytes p w = (Ok b, w') -> files w !! p = Some b.
Proof.
  unfold read_bytes. destruct (files w !! p); [by intros [= <- _]|].
  by case_bool_decide.
Qed.

(** A successful [add_file_to_container] encrypts the old plaintext
    followed by the new record, under the key of the key file and the
    nonce it has just drawn, and stores that nonce. *)
Lemma add_file_enc (w w' : world) (cp kp fn : string) (c : bytes) :
  add_file cp kp fn c w = (Ok tt, w') ->
  exists k nonce0 ct0 plain0 rec,
    files w !! kp = Some k
    /\ read_container cp w = (Ok (nonce0, ct0), w)
    /\ aead_decrypt k nonce0 ct0 = Some plain0
    /\ make_record (utf8_encode (path_name fn)) c = Ok rec
    /\ files w' !! cp
       = Some (container_image (block (entropy w) (drawn w))
                 (aead_encrypt k (block (entropy w) (drawn w)) (plain0 ++ rec)))
    /\ drawn w' = drawn w + 12 /\ entropy w' = entropy w.
Proof.
  unfold add_file_to_container. intros H.
  apply bind_inv in H as [(key & w1 & E & H)|(e & _ & E)]; [|done].
  pose proof (read_bytes_same E) as ->. apply read_bytes_Ok in E as Hk.
  apply bind_inv in H as [(aes & w1 & E1 & H)|(e & _ & E1)]; [|done].
  pose proof (AESGCM_same E1) as ->. apply AESGCM_Ok in E1 as ->.
  apply bind_inv in H as [([nonce0 ct0] & w1 & E2 & H)|(e & _ & E2)]; [|done].
  pose proof (read_container_same E2) as ->. cbv beta iota in H.
  apply bind_inv in H as [(plain0 & w1 & E3 & H)|(e & _ & E3)]; [|done].
  pose proof (aes_decrypt_same E3) as ->. apply aes_decrypt_Ok in E3.
  apply bind_inv in H as [(rec & w1 & E4 & H)|(e & _ & E4)]; [|done].
  unfold lift in E4. injection E4 as E4 <-.
  apply bind_inv in H as [(new_nonce & w1 & E5 & H)|(e & _ & E5)]; [|done].
  assert (En : new_nonce = block (entropy w) (drawn w)
               /\ w1 = set_drawn (fun d => d + 12) w).
  { unfold token_bytes in E5. by injection E5 as <- <-. }
  destruct En as [-> ->]. clear E5.
  apply bind_inv in H as [(new_ct & w2 & E6 & H)|(e & _ & E6)]; [|done].
  pose proof (aes_encrypt_same E6) as ->. apply aes_encrypt_Ok in E6 as ->.
  pose proof (write_container_frame _ _ _ _ _ _ H) as (_ & R & T & _).
  apply write_container_Ok in H.
  exists key, nonce0, ct0, plain0, rec.
  split; [done|]. split; [done|]. split; [done|]. split; [done|].
  split; [done|]. split; [rewrite R; by destruct w|rewrite T; by destruct w].
Qed.

(** A successful [create_encrypted_container] encrypts the empty
    plaintext under the key it loaded or generated and the nonce it has
    just drawn, and stores that nonce. *)
Lemma create_enc (w w' : world) (cp kp : string) :
  create_encrypted_container aead_encrypt cp kp w = (Ok tt, w') ->
  exists k d,
    ((files w !! kp = Some k /\ d = drawn w)
     \/ (k = map (entropy w) (seq (drawn w) 32) /\ d = drawn w + 32))
    /\ files w' !! cp
       = Some (container_image (block (entropy w) d)
                 (aead_encrypt k (block (entropy w) d) []))
    /\ drawn w' = d + 12 /\ entropy w' = entropy w.
Proof.
  unfold create_encrypted_container. intros H.
  apply bind_inv in H as [(ex & w1 & E & H)|(e & _ & E)]; [|done].
  apply path_exists_same in E as ->. destruct ex; [done|].
  apply bind_inv in H as [(kex & w1 & E & H)|(e & _ & E)]; [|done].
  apply path_exists_same in E as ->.
  apply bind_inv in H as [(k & w1 & E & H)|(e & _ & E)]; [|done].
  assert (Hw1 : entropy w1 = entropy w
                /\ ((files w !! kp = Some k /\ drawn w1 = drawn w)
                    \/ (k = map (entropy w) (seq (drawn w) 32)
                        /\ drawn w1 = drawn w + 32))).
  { destruct kex.
    - pose proof (read_bytes_same E) as ->. apply read_bytes_Ok in E. auto.
    - apply bind_inv in E as [(k' & w2 & E2 & E)|(e & _ & E)]; [|done].
      unfold generate_key_bytes, token_bytes in E2. injection E2 as <- <-.
      apply bind_inv in E as [([] & w3 & E3 & E)|(e & _ & E)]; [|done].
      apply write_bytes_frame in E3 as [R T]. injection E as <- <-.
      rewrite R, T. destruct w; unfold_world. auto. }
  destruct Hw1 as [He Hk].
  apply bind_inv in H as [(aes & w2 & E2 & H)|(e & _ & E2)]; [|done].
  pose proof (AESGCM_same E2) as ->. apply AESGCM_Ok in E2 as ->.
  apply bind_inv in H as [(nonce & w2 & E2 & H)|(e & _ & E2)]; [|done].
  assert (En : nonce = block (entropy w1) (drawn w1)
               /\ w2 = set_drawn (fun d => d + 12) w1).
  { unfold token_bytes in E2. by injection E2 as <- <-. }
  destruct En as [-> ->]. clear E2.
  apply bind_inv in H as [(ct & w3 & E3 & H)|(e & _ & E3)]; [|done].
  pose proof (aes_encrypt_same E3) as ->. apply aes_encrypt_Ok in E3 as ->.
  pose proof (write_container_frame _ _ _ _ _ _ H) as (_ & R & T & _).
  apply write_container_Ok in H. rewrite He in H.
  exists k, (drawn w1). split.
  { destruct Hk as [[? ->]|[? ->]]; auto. }
  split; [done|].
  split; [rewrite R; by destruct w1|rewrite T, <- He; by destruct w1].
Qed.

#[local] Abbreviation mutated :=
  (mutation aead_encrypt aead_decrypt utf8_encode path_name).
#[local] Abbreviation mutated_through :=
  (mutations aead_encrypt aead_decrypt utf8_encode path_name).

(** What one mutation encrypts, and under which nonce. *)
Lemma mutation_enc (w w' : world) (cp kp : string) :
  mutated cp kp w w' ->
  drawn w + 12 <= drawn w' /\ entropy w' = entropy w
  /\ exists k plain,
       (files w !! kp = Some k \/ k = map (entropy w) (seq (drawn w) 32))
       /\ (plain = []
           \/ exists nonce0 ct0 plain0 rec,
                read_container cp w = (Ok (nonce0, ct0), w)
                /\ aead_decrypt k nonce0 ct0 = Some plain0
                /\ plain = plain0 ++ rec)
       /\ files w' !! cp
          = Some (container_image (block (entropy w) (drawn w' - 12))
                    (aead_encrypt k (block (entropy w) (drawn w' - 12)) plain)).
Proof.
  intros [H|(fn & c & H)].
  - apply create_enc in H as (k & d & Hk & Hf & Hd & He).
    replace (drawn w' - 12) with d by lia.
    split; [destruct Hk as [[_ ->]|[_ ->]]; lia|]. split; [done|].
    exists k, []. split; [destruct Hk as [[? _]|[? _]]; auto|]. split; [by left|done].
  - apply add_file_enc in H
      as (k & nonce0 & ct0 & plain0 & rec & Hk & Hr & Hp & _ & Hf & Hd & He).
    replace (drawn w' - 12) with (drawn w) by lia.
    split; [lia|]. split; [done|].
    exists k, (plain0 ++ rec). split; [by left|]. split; [|done].
    right. by exists nonce0, ct0, plain0, rec.
Qed.

(** Along consecutive mutations the tape is read forward, 12 bytes or
    more at a time. *)
Lemma mutations_drawn (cp kp : string) (ws : list world) :
  forall w : world,
  mutated_through cp kp w ws ->
  drawn w <= drawn (default w (last ws))
  /\ Forall (fun w' => drawn w + 12 <= drawn w'
                       /\ drawn w' <= drawn (default w (last ws))) ws.
Proof.
  induction ws as [|w1 ws IH]; intros w H; [by split|].
  destruct H as [H1 H]. apply mutation_enc in H1 as (Hd & _).
  destruct (IH w1 H) as (Hl & Hall).
  assert (El : default w (last (w1 :: ws)) = default w1 (last ws)).
  { rewrite last_cons. by destruct (last ws). }
  rewrite El. split; [lia|].
  apply Forall_cons. split; [lia|].
  eapply Forall_impl; [exact Hall|]. cbn beta. intros w' [? ?]. lia.
Qed.

Lemma mutations_step (cp kp : string) (ws : list world) :
  forall (w : world) (i : nat) (w0 w' : world),
  mutated_through cp kp w ws ->
  (w :: ws) !! i = Some w0 -> ws !! i = Some w' ->
  mutated cp kp w0 w' /\ entropy w0 = entropy w.
Proof.
  induction ws as [|w1 ws IH]; intros w i w0 w' H H0 H'; [done|].
  destruct H as [H1 H]. destruct i as [|i].
  - injection H0 as <-. injection H' as <-. done.
  - destruct (IH w1 i w0 w' H H0 H') as [Hm He]. split; [done|].
    apply mutation_enc in H1 as (_ & He1 & _). congruence.
Qed.

Lemma mutations_NoDup (e : nat -> byte) (cp kp : string) (ws : list world) :
  forall (w : world) (lo : nat),
  lo <= drawn w ->
  mutated_through cp kp w ws ->
  unrepeated e lo (drawn (default w (last ws))) ->
  NoDup (map (fun w' => block e (drawn w' - 12)) ws).
Proof.
  induction ws as [|w1 ws IH]; intros w lo Hlo H Hu; [constructor|].
  assert (El : default w (last (w1 :: ws)) = default w1 (last ws)).
  { rewrite last_cons. by destruct (last ws). }
  rewrite El in Hu. destruct H as [H1 H].
  apply mutation_enc in H1 as (Hd & _).
  destruct (mutations_drawn cp kp ws w1 H) as (_ & Hall).
  cbn [map]. apply NoDup_cons. split.
  - intros Hin. apply list_elem_of_fmap in Hin as (wj & Heq & Hj).
    rewrite Forall_forall in Hall. destruct (Hall wj Hj) as [Hj1 Hj2].
    apply (Hu (drawn w1 - 12) (drawn wj - 12)); [lia..|done].
  - apply (IH w1 lo); [lia|done|done].
Qed.

(** C7.  Along any run of consecutive successful encryptions of a
    container, by [create_encrypted_container] or by
    [add_file_to_container], every encryption is made under the 12 bytes
    the call itself drew from the random source, taken after everything
    drawn before the call: the file the call leaves holds this nonce
    and the ciphertext of the plaintext (empty, or the old plaintext
    followed by the new record) under the key and this very nonce.  The
    nonces of the run lie in blocks of the tape that do not overlap, so
    no nonce of the run is used twice unless the random source itself
    returns the same 12 bytes twice. *)
Theorem nonce_fresh (w : world) (cp kp : string) (ws : list world) :
  mutations aead_encrypt aead_decrypt utf8_encode path_name cp kp w ws ->
  let nonce (w' : world) := block (entropy w) (drawn w' - 12) in
  (forall i w0 w',
     (w :: ws) !! i = Some w0 -> ws !! i = Some w' ->
     drawn w0 + 12 <= drawn w' /\ entropy w' = entropy w
     /\ length (nonce w') = 12
     /\ exists k plain,
          (files w0 !! kp = Some k \/ k = map (entropy w) (seq (drawn w0) 32))
          /\ (plain = []
              \/ exists nonce0 ct0 plain0 rec,
                   read_container cp w0 = (Ok (nonce0, ct0), w0)
                   /\ aead_decrypt k nonce0 ct0 = Some plain0
                   /\ plain = plain0 ++ rec)
          /\ files w' !! cp
             = Some (container_image (nonce w')
                       (aead_encrypt k (nonce w') plain)))
  /\ (unrepeated (entropy w) (drawn w) (drawn (default w (last ws))) ->
      NoDup (map nonce ws)).
Proof.
  intros H nonce. split.
  - intros i w0 w' H0 H'.
    destruct (mutations_step cp kp ws w i w0 w' H H0 H') as [Hm He].
    apply mutation_enc in Hm as (Hd & He' & k & plain & Hk & Hp & Hf).
    unfold nonce. rewrite <- He.
    split; [done|]. split; [congruence|].
    split; [unfold block; by rewrite length_map, length_seq|].
    by exists k, plain.
  - intros Hu. by apply (mutations_NoDup (entropy w) cp kp ws w (drawn w)).
Qed.

End ContainerFacts.

(** ** The container codec on the concrete instance *)

Lemma toy_aead_correct (k n p : bytes) : toy_decrypt k n (toy_encrypt k n p) = Some p.
Proof.
  unfold toy_decrypt, toy_encrypt.
  assert (Ht : length (toy_tag k n) = 16).
  { unfold toy_tag. rewrite length_take, !length_app, length_replicate. lia. }
  rewrite length_app, Ht.
  replace (length p + 16 - 16) with (length p) by lia.
  rewrite drop_app_length, take_app_length.
  rewrite bool_decide_eq_true_2; [done|]. split; [lia|done].
Qed.

Lemma toy_roundtrip (s : string) : toy_decode (toy_encode s) = Some s.
Proof. unfold toy_decode, toy_encode. by rewrite string_of_list_byte_of_string. Qed.

Lemma toy_store_holds : holds toy_decrypt toy_store "c.bin" "k.key" [].
Proof.
  exists toy_key, toy_nonce, (toy_encrypt toy_key toy_nonce []).
  split; [by vm_compute|]. split; [right; right; by vm_compute|].
  split; [by vm_compute|]. split; [by vm_compute|].
  split; [by vm_compute|]. split; [by vm_compute|].
  split; [apply not_elem_of_empty|done].
Qed.

Lemma toy_short_holds :
  holds toy_decrypt toy_short "c.bin" "k.key"
    (truncated_record (toy_encode "a.txt") 5 [x01; x02]).
Proof.
  exists toy_key, toy_nonce,
    (toy_encrypt toy_key toy_nonce (truncated_record (toy_encode "a.txt") 5 [x01; x02])).
  split; [by vm_compute|]. split; [right; right; by vm_compute|].
  split; [by vm_compute|]. split; [by vm_compute|].
  split; [by vm_compute|]. split; [by vm_compute|].
  split; [apply not_elem_of_empty|done].
Qed.

Lemma toy_out_free (n : string) (w : world) :
  dirs w = ∅ -> path_join "out" n <> "out" ->
  path_join "out" n ∉ ({["out"]} ∪ dirs w : gset string).
Proof. intros -> Hn. set_solver. Qed.

(** Witness of [extract_after_add]: two uploads with distinct stored names
    into an empty container. *)
Lemma extract_after_add_witness :
  exists w',
    (add_files toy_encrypt toy_decrypt toy_encode toy_name "c.bin" "k.key" toy_pairs ;;
     extract_all toy_decrypt toy_decode "c.bin" "k.key" "out") toy_store = (Ok tt, w')
    /\ forall i up, toy_pairs !! i = Some up ->
         files w' !! path_join "out" (toy_name up.1)
         = last_content (toy_name up.1) (map (stored toy_name) toy_pairs)
         /\ ((forall j up', i < j -> toy_pairs !! j = Some up' ->
                toy_name up'.1 <> toy_name up.1) ->
             files w' !! path_join "out" (toy_name up.1) = Some up.2).
Proof.
  apply (extract_after_add toy_encrypt toy_decrypt toy_encode toy_decode toy_name
           toy_aead_correct toy_roundtrip toy_store "c.bin" "k.key" "out" [] toy_pairs).
  - exact toy_store_holds.
  - repeat constructor.
  - by vm_compute.
  - repeat constructor; apply toy_out_free; by vm_compute.
Defined.

(** Counterexample to C2 as stated: two pairs with the same stored name;
    after extraction the file holds the second content, so the first
    pair's content is not reproduced under its name. *)
Lemma roundtrip_duplicate_names :
  exists w',
    (add_files toy_encrypt toy_decrypt toy_encode toy_name "c.bin" "k.key" toy_twice ;;
     extract_all toy_decrypt toy_decode "c.bin" "k.key" "out") toy_store = (Ok tt, w')
    /\ map (stored toy_name) toy_twice = [("a.txt", [x01]); ("a.txt", [x02])]
    /\ files w' !! path_join "out" "a.txt" = Some [x02]
    /\ files w' !! path_join "out" "a.txt" <> Some [x01].
Proof.
  eexists. split; [by vm_compute|]. split; [by vm_compute|].
  split; [by vm_compute|]. vm_compute. discriminate.
Qed.

(** Witness of [extract_all_truncated]. *)
Lemma extract_all_truncated_witness :
  extract_all toy_decrypt toy_decode "c.bin" "k.key" "out" toy_short
  = (Ok tt, set_files (files_after "out" ([] ++ [("a.txt", [x01; x02])]))
              (set_dirs (fun ds => {["out"]} ∪ ds) toy_short)).
Proof.
  apply (extract_all_truncated toy_decrypt toy_encode toy_decode toy_roundtrip
           toy_short "c.bin" "k.key" "out" "a.txt" [] 5%N [x01; x02]).
  - exact toy_short_holds.
  - constructor.
  - by vm_compute.
  - by vm_compute.
  - change (2 < 5). lia.
  - by vm_compute.
  - repeat constructor. apply toy_out_free; by vm_compute.
Defined.

(** Counterexample to C4 as stated: the record declares five content
    bytes, two are left; [extract_all] raises nothing and writes the two
    bytes. *)
Lemma truncated_record_extracted :
  exists w',
    extract_all toy_decrypt toy_decode "c.bin" "k.key" "out" toy_short = (Ok tt, w')
    /\ files w' !! "out/a.txt" = Some [x01; x02]
    /\ toy_decrypt toy_key toy_nonce
         (toy_encrypt toy_key toy_nonce (truncated_record (toy_encode "a.txt") 5 [x01; x02]))
       = Some (truncated_record (toy_encode "a.txt") 5 [x01; x02])
    /\ length [x01; x02] < 5.
Proof.
  eexists. split; [by vm_compute|]. split; [by vm_compute|].
  split; [by vm_compute|]. cbn [length]. lia.
Qed.



Lemma toy_unrepeated (hi : nat) :
  hi <= 256 -> unrepeated (entropy toy_world) 0 hi.
Proof.
  intros Hhi d1 d2 _ H1 H2 Heq. unfold block in Heq.
  change (seq d1 12) with (d1 :: seq (S d1) 11) in Heq.
  change (seq d2 12) with (d2 :: seq (S d2) 11) in Heq.
  cbn [map] in Heq. injection Heq as Heq _. cbn [entropy toy_world] in Heq.
  apply (f_equal Byte.to_N) in Heq.
  rewrite !byte_of_N_to_N in Heq by (apply N.mod_lt; lia).
  rewrite !N.mod_small in Heq by lia. lia.
Qed.

(** Witness of [nonce_fresh]: a container is created on the empty toy
    machine and two files are added to it. *)
Lemma nonce_fresh_witness :
  let w := toy_world in
  let w1 := (create_encrypted_container toy_encrypt "c.bin" "k.key" w).2 in
  let w2 := (add_file_to_container toy_encrypt toy_decrypt toy_encode toy_name
               "c.bin" "k.key" "a.txt" [x01] w1).2 in
  let w3 := (add_file_to_container toy_encrypt toy_decrypt toy_encode toy_name
               "c.bin" "k.key" "b.txt" [x02] w2).2 in
  let ws := [w1; w2; w3] in
  let nonce (w' : world) := block (entropy w) (drawn w' - 12) in
  (forall i w0 w',
     (w :: ws) !! i = Some w0 -> ws !! i = Some w' ->
     drawn w0 + 12 <= drawn w' /\ entropy w' = entropy w
     /\ length (nonce w') = 12
     /\ exists k plain,
          (files w0 !! "k.key" = Some k \/ k = map (entropy w) (seq (drawn w0) 32))
          /\ (plain = []
              \/ exists nonce0 ct0 plain0 rec,
                   read_container "c.bin" w0 = (Ok (nonce0, ct0), w0)
                   /\ toy_decrypt k nonce0 ct0 = Some plain0
                   /\ plain = plain0 ++ rec)
          /\ files w' !! "c.bin"
             = Some (container_image (nonce w')
                       (toy_encrypt k (nonce w') plain)))
  /\ NoDup (map nonce ws).
Proof.
  intros w w1 w2 w3 ws nonce.
  assert (H : mutations toy_encrypt toy_decrypt toy_encode toy_name
                "c.bin" "k.key" w ws).
  { split; [left; by vm_compute|].
    split; [right; exists "a.txt", [x01]; by vm_compute|].
    split; [right; exists "b.txt", [x02]; by vm_compute|exact I]. }
  split.
  - exact (proj1 (nonce_fresh toy_encrypt toy_decrypt toy_encode toy_name
                    w "c.bin" "k.key" ws H)).
  - apply (proj2 (nonce_fresh toy_encrypt toy_decrypt toy_encode toy_name
                    w "c.bin" "k.key" ws H)).
    apply toy_unrepeated.
    assert (E : drawn (default w (last ws)) = 68) by (by vm_compute).
    rewrite E. lia.
Defined.

(** ** The key wipe *)

Lemma hwrite_ok (w : world) (path : string) (pos : nat) (data old : bytes) :
  io_budget w = None -> files w !! path = Some old -> pos <= length old ->
  hwrite (Handle path pos) data w
  = (Ok (Handle path (pos + length data)),
     set_files (<[path := take pos old ++ data ++ drop (pos + length data) old]>) w).
Proof.
  intros Hb Hf Hp. unfold hwrite. rewrite Hb. cbn [h_path h_pos].
  destruct w; unfold_world. subst. rewrite Hf.
  change (default [] (Some old)) with old.
  unfold overwrite_at. replace (pos - length old) with 0 by lia.
  reflexivity.
Qed.

Section OverwriteLoop.

(** A source of chunks: what it returns and how it moves the world. *)
Variable src : nat -> M bytes.
Variable data_of : world -> nat -> bytes.
Variable step : nat -> world -> world.

Hypothesis src_spec :
  forall n w, n <= N.to_nat CHUNK -> src n w = (Ok (data_of w n), step n w).
Hypothesis data_length : forall w n, length (data_of w n) = n.
Hypothesis data_app :
  forall w a b, data_of w (a + b) = data_of w a ++ data_of (step a w) b.
Hypothesis data_files : forall f w n, data_of (set_files f w) n = data_of w n.
Hypothesis step_files : forall f w n, step n (set_files f w) = set_files f (step n w).
Hypothesis step_add : forall w a b, step b (step a w) = step (a + b) w.
Hypothesis step_0 : forall w, step 0 w = w.
Hypothesis step_keeps :
  forall w n, files (step n w) = files w /\ io_budget (step n w) = io_budget w.

(** The chunked loop overwrites exactly the [rem] bytes from the
    position on, with the data of the source in order, and never runs out
    of fuel when given the remaining length. *)
Lemma overwrite_loop_spec (path : string) (fuel : nat) :
  forall (rem : N) (pos : nat) (w : world) (old : bytes),
  N.to_nat rem <= fuel ->
  files w !! path = Some old -> io_budget w = None ->
  pos + N.to_nat rem <= length old ->
  overwrite_loop fuel src (Handle path pos) rem w
  = (Ok (Some (Handle path (pos + N.to_nat rem))),
     set_files (<[path := take pos old ++ data_of w (N.to_nat rem)
                            ++ drop (pos + N.to_nat rem) old]>)
       (step (N.to_nat rem) w)).
Proof.
  induction fuel as [|fuel IH]; intros rem pos w old Hfuel Hf Hb Hlen.
  - assert (rem = 0%N) as -> by lia. cbn [overwrite_loop N.ltb N.compare].
    change (N.to_nat 0) with 0. rewrite Nat.add_0_r, step_0.
    assert (E : data_of w 0 = []).
    { apply length_zero_iff_nil. apply data_length. }
    rewrite E, app_nil_l, take_drop.
    unfold mret, M_ret. f_equal. destruct w; unfold_world. f_equal.
    symmetry. by apply insert_id.
  - cbn [overwrite_loop]. destruct (N.ltb_spec 0 rem) as [Hpos|Hz].
    + set (chunk := N.min CHUNK rem).
      assert (Hc : N.to_nat chunk <= N.to_nat CHUNK) by (unfold chunk; lia).
      assert (Hc1 : 1 <= N.to_nat chunk).
      { unfold chunk, CHUNK. lia. }
      assert (Hc2 : N.to_nat chunk <= N.to_nat rem) by (unfold chunk; lia).
      erewrite bind_ok; last by apply src_spec.
      destruct (step_keeps w (N.to_nat chunk)) as [Sf Sb].
      erewrite bind_ok; last first.
      { apply (hwrite_ok _ _ _ _ old); [congruence|congruence|lia]. }
      rewrite data_length.
      set (old' := take pos old ++ data_of w (N.to_nat chunk)
                     ++ drop (pos + N.to_nat chunk) old).
      rewrite (IH (rem - chunk)%N (pos + N.to_nat chunk) _ old').
      * f_equal.
        { do 3 f_equal. lia. }
        rewrite step_files, step_add, data_files.
        replace (N.to_nat chunk + N.to_nat (rem - chunk)) with (N.to_nat rem) by lia.
        generalize (step (N.to_nat rem) w). intros w2.
        destruct w2; unfold_world. f_equal. rewrite insert_insert_eq. f_equal.
        replace (N.to_nat rem) with (N.to_nat chunk + N.to_nat (rem - chunk)) at 1 by lia.
        rewrite data_app.
        assert (L1 : length (take pos old) = pos) by (rewrite length_take; lia).
        assert (E1 : take (pos + N.to_nat chunk) old'
                     = take pos old ++ data_of w (N.to_nat chunk)).
        { unfold old'. rewrite app_assoc. apply take_app_length'.
          rewrite length_app, data_length. lia. }
        assert (E2 : drop (pos + N.to_nat chunk + N.to_nat (rem - chunk)) old'
                     = drop (pos + N.to_nat rem) old).
        { unfold old'. rewrite app_assoc.
          rewrite drop_app_ge by (rewrite length_app, data_length; lia).
          rewrite length_app, data_length, L1, drop_drop. f_equal. lia. }
        rewrite E1, E2. by rewrite <- !app_assoc.
      * lia.
      * destruct w; unfold_world. destruct (step (N.to_nat chunk) _); unfold_world.
        by rewrite lookup_insert_eq.
      * destruct (step_keeps (set_files (<[path := old']>) w) (N.to_nat chunk)) as [_ Sb'].
        rewrite <- step_files in *. rewrite Sb'. by destruct w.
      * unfold old'. rewrite !length_app, data_length, length_take, length_drop. lia.
    + assert (rem = 0%N) as -> by lia.
      change (N.to_nat 0) with 0. rewrite Nat.add_0_r, step_0.
      assert (E : data_of w 0 = []).
      { apply length_zero_iff_nil. apply data_length. }
      rewrite E, app_nil_l, take_drop.
      unfold mret, M_ret. f_equal. destruct w; unfold_world. f_equal.
      symmetry. by apply insert_id.
Qed.

End OverwriteLoop.

(** The random passes draw from the tape; the zero pass draws nothing. *)
Lemma overwrite_loop_random (path : string) (w : world) (old : bytes) :
  files w !! path = Some old -> io_budget w = None ->
  overwrite_loop (length old) token_bytes (Handle path 0) (N.of_nat (length old)) w
  = (Ok (Some (Handle path (length old))),
     set_files (<[path := map (entropy w) (seq (drawn w) (length old))]>)
       (set_drawn (fun d => d + length old) w)).
Proof.
  intros Hf Hb.
  rewrite (overwrite_loop_spec token_bytes
             (fun w n => map (entropy w) (seq (drawn w) n))
             (fun n => set_drawn (fun d => d + n))) with (old := old).
  - rewrite Nat2N.id, take_0, app_nil_l, Nat.add_0_l, drop_all, app_nil_r. reflexivity.
  - reflexivity.
  - intros w0 n. by rewrite length_map, length_seq.
  - intros w0 a b. destruct w0; unfold_world. by rewrite seq_app, map_app.
  - intros f w0 n. by destruct w0.
  - intros f w0 n. by destruct w0.
  - intros w0 a b. destruct w0; unfold_world. f_equal. lia.
  - intros w0. destruct w0; unfold_world. f_equal. lia.
  - intros w0 n. by destruct w0.
  - lia.
  - done.
  - done.
  - lia.
Qed.

Lemma overwrite_loop_zero (path : string) (w : world) (old : bytes) :
  files w !! path = Some old -> io_budget w = None ->
  overwrite_loop (length old) zero_chunk (Handle path 0) (N.of_nat (length old)) w
  = (Ok (Some (Handle path (length old))),
     set_files (<[path := replicate (length old) x00]>) w).
Proof.
  intros Hf Hb.
  rewrite (overwrite_loop_spec zero_chunk (fun _ n => replicate n x00) (fun _ w => w))
    with (old := old).
  - rewrite Nat2N.id, take_0, app_nil_l, Nat.add_0_l, drop_all, app_nil_r. reflexivity.
  - intros n w0 Hn. unfold zero_chunk, slice.
    rewrite Nat.sub_0_r, drop_0, take_replicate, Nat.min_l by done. reflexivity.
  - intros w0 n. apply length_replicate.
  - intros w0 a b. apply replicate_add.
  - done.
  - done.
  - done.
  - done.
  - done.
  - lia.
  - done.
  - done.
  - lia.
Qed.

Lemma tape_images_S (e : nat -> byte) (d n k : nat) :
  tape_images e d n (S k) = map e (seq d n) :: tape_images e (d + n) n k.
Proof.
  unfold tape_images. cbn [seq map]. rewrite Nat.add_0_r. f_equal.
  rewrite <- seq_shift, map_map. apply map_ext. intros i.
  do 2 f_equal. lia.
Qed.

Lemma length_tape_images (e : nat -> byte) (d n k : nat) :
  length (tape_images e d n k) = k.
Proof. unfold tape_images. by rewrite length_map, length_seq. Qed.

Lemma tape_images_length (e : nat -> byte) (d n k : nat) (img : bytes) :
  img ∈ tape_images e d n k -> length img = n.
Proof.
  unfold tape_images. intros (i & -> & _)%list_elem_of_fmap.
  by rewrite length_map, length_seq.
Qed.

(** One random pass: the whole file becomes the next window of the tape
    and that image is forced to stable storage. *)
Lemma random_pass_spec (path : string) (pos : nat) (w : world) (old : bytes) :
  files w !! path = Some old -> io_budget w = None ->
  random_pass (N.of_nat (length old)) (Handle path pos) w
  = (Ok (Some (Handle path (length old))),
     set_trace (fun t => t ++ [EvFsync path (map (entropy w) (seq (drawn w) (length old)))])
       (set_files (<[path := map (entropy w) (seq (drawn w) (length old))]>)
          (set_drawn (fun d => d + length old) w))).
Proof.
  intros Hf Hb. unfold random_pass, seek0. cbn [h_path].
  rewrite Nat2N.id.
  erewrite bind_ok; last by apply overwrite_loop_random.
  unfold flush_fsync, mbind, M_bind, mret, M_ret. cbn [h_path].
  destruct w; unfold_world. by rewrite lookup_insert_eq.
Qed.

(** [k] random passes. *)
Lemma random_passes_spec (path : string) (k : nat) :
  forall (pos : nat) (w : world) (old : bytes),
  files w !! path = Some old -> io_budget w = None ->
  exists w' pos' img,
    random_passes k (N.of_nat (length old)) (Handle path pos) w
    = (Ok (Some (Handle path pos')), w')
    /\ files w' = <[path := img]> (files w) /\ length img = length old
    /\ dirs w' = dirs w /\ io_budget w' = None /\ entropy w' = entropy w
    /\ drawn w' = drawn w + k * length old
    /\ trace w'
       = trace w ++ map (EvFsync path)
                      (tape_images (entropy w) (drawn w) (length old) k).
Proof.
  induction k as [|k IH]; intros pos w old Hf Hb.
  - exists w, pos, old. cbn [random_passes]. split; [done|].
    split; [symmetry; by apply insert_id|]. split; [done|]. split; [done|].
    split; [done|]. split; [done|]. split; [lia|].
    unfold tape_images. cbn [seq map]. by rewrite app_nil_r.
  - cbn [random_passes].
    set (img1 := map (entropy w) (seq (drawn w) (length old))).
    set (w1 := set_trace (fun t => t ++ [EvFsync path img1])
                 (set_files (<[path := img1]>)
                    (set_drawn (fun d => d + length old) w))).
    assert (L1 : length img1 = length old) by (unfold img1; by rewrite length_map, length_seq).
    assert (Hf1 : files w1 !! path = Some img1).
    { unfold w1. destruct w; unfold_world. by rewrite lookup_insert_eq. }
    assert (Hb1 : io_budget w1 = None) by (unfold w1; by destruct w).
    destruct (IH (length old) w1 img1 Hf1 Hb1)
      as (w' & pos' & img & E & F & L & D & B & T & R & Tr).
    rewrite L1 in E, R, Tr, L.
    exists w', pos', img. split.
    { erewrite bind_ok; last by apply random_pass_spec. exact E. }
    split.
    { rewrite F. unfold w1. destruct w; unfold_world. by rewrite insert_insert_eq. }
    split; [congruence|]. split; [rewrite D; unfold w1; by destruct w|].
    split; [done|]. split; [rewrite T; unfold w1; by destruct w|].
    split.
    { rewrite R. unfold w1. destruct w; unfold_world. lia. }
    rewrite Tr, tape_images_S. unfold w1. destruct w; unfold_world.
    fold img1. cbn [map]. by rewrite <- app_assoc.
Qed.

Lemma zero_pass_spec (path : string) (w : world) (old : bytes) :
  files w !! path = Some old -> io_budget w = None ->
  zero_pass (N.of_nat (length old)) path w
  = (Ok true,
     set_trace (fun t => t ++ [EvFsync path (replicate (length old) x00)])
       (set_files (<[path := replicate (length old) x00]>) w)).
Proof.
  intros Hf Hb. unfold zero_pass.
  erewrite bind_ok; last by (unfold open_rpb; rewrite Hf).
  unfold seek0. cbn [h_path]. rewrite Nat2N.id.
  erewrite bind_ok; last by apply overwrite_loop_zero.
  unfold flush_fsync, mbind, M_bind, mret, M_ret. cbn [h_path].
  destruct w; unfold_world. by rewrite lookup_insert_eq.
Qed.

(** A run of [secure_overwrite_and_delete] on an existing file, writes
    not failing. *)
Lemma wipe_run (w : world) (path : string) (passes : Z) (old : bytes) :
  files w !! path = Some old -> io_budget w = None ->
  exists w',
    secure_overwrite_and_delete path passes w = (Ok tt, w')
    /\ files w' = delete path (files w) /\ dirs w' = dirs w
    /\ drawn w' = drawn w + Z.to_nat passes * length old
    /\ trace w'
       = trace w
         ++ map (EvFsync path)
              (tape_images (entropy w) (drawn w) (length old) (Z.to_nat passes))
         ++ [EvFsync path (replicate (length old) x00); EvUnlink path].
Proof.
  intros Hf Hb.
  destruct (random_passes_spec path (Z.to_nat passes) 0 w old Hf Hb)
    as (w1 & pos' & img & E & F & L & D & B & T & R & Tr).
  assert (Hf1 : files w1 !! path = Some img) by (rewrite F; apply lookup_insert_eq).
  pose proof (zero_pass_spec path w1 img Hf1 B) as Ez. rewrite L in Ez.
  set (wz := set_trace (fun t => t ++ [EvFsync path (replicate (length old) x00)])
               (set_files (<[path := replicate (length old) x00]>) w1)) in Ez.
  exists (set_trace (fun t => t ++ [EvUnlink path]) (set_files (delete path) wz)).
  split.
  { unfold secure_overwrite_and_delete.
    erewrite bind_ok; last first.
    { unfold path_exists. rewrite Hf.
      rewrite (bool_decide_eq_true_2 (is_Some (Some old))) by eauto. reflexivity. }
    cbn [negb orb].
    erewrite bind_ok; last by (unfold stat_size; rewrite Hf).
    erewrite bind_ok; last by (unfold open_rpb; rewrite Hf).
    erewrite bind_ok; last by exact E.
    cbv beta iota.
    erewrite bind_ok; last by exact Ez.
    cbv beta iota. unfold unlink.
    assert (Hz : files wz !! path = Some (replicate (length old) x00)).
    { unfold wz. destruct w1; unfold_world. by rewrite lookup_insert_eq. }
    by rewrite Hz. }
  unfold wz. destruct w1; unfold_world. subst.
  split; [by rewrite !delete_insert_eq|]. split; [done|].
  split; [done|]. by rewrite <- !app_assoc.
Qed.

(** C8.  [secure_overwrite_and_delete] raises [FileNotFoundError] when the
    path is absent.  On an existing file of [n] bytes it forces to stable
    storage, in this order, exactly [passes] images of [n] bytes each, the
    successive windows of the random tape, then one image of [n] zero
    bytes, and then removes the file: the path no longer exists and
    [load_key] on it raises [FileNotFoundError]. *)
Theorem secure_overwrite_and_delete_spec (w : world) (path : string) (passes : Z) :
  (files w !! path = None -> path ∉ dirs w ->
   secure_overwrite_and_delete path passes w
   = (Raise (FileNotFoundError "keyfile missing"), w))
  /\ (forall old, files w !! path = Some old -> path ∉ dirs w ->
      io_budget w = None -> (0 <= passes)%Z ->
      exists w',
        secure_overwrite_and_delete path passes w = (Ok tt, w')
        /\ trace w'
           = trace w
             ++ map (EvFsync path)
                  (tape_images (entropy w) (drawn w) (length old) (Z.to_nat passes))
             ++ [EvFsync path (replicate (length old) x00); EvUnlink path]
        /\ Z.of_nat (length (tape_images (entropy w) (drawn w) (length old)
                              (Z.to_nat passes))) = passes
        /\ (forall img,
              img ∈ tape_images (entropy w) (drawn w) (length old) (Z.to_nat passes) ->
              length img = length old)
        /\ path_exists path w' = (Ok false, w')
        /\ load_key path w' = (Raise (FileNotFoundError path), w')).
Proof.
  split.
  - intros Hf Hd. unfold secure_overwrite_and_delete.
    erewrite bind_ok; last first.
    { unfold path_exists. rewrite Hf.
      rewrite (bool_decide_eq_false_2 (is_Some None)) by (by intros [? ?]).
      rewrite bool_decide_eq_false_2 by done. reflexivity. }
    reflexivity.
  - intros old Hf Hd Hb Hp.
    destruct (wipe_run w path passes old Hf Hb) as (w' & E & F & D & R & Tr).
    exists w'. split; [done|]. split; [done|].
    split; [rewrite length_tape_images; lia|].
    split; [intros img; apply tape_images_length|].
    assert (Hn : files w' !! path = None) by (rewrite F; apply lookup_delete_eq).
    split.
    + unfold path_exists. rewrite Hn.
      rewrite (bool_decide_eq_false_2 (is_Some None)) by (by intros [? ?]).
      rewrite bool_decide_eq_false_2 by (by rewrite D). reflexivity.
    + unfold load_key, read_bytes. rewrite Hn.
      by rewrite bool_decide_eq_false_2 by (by rewrite D).
Qed.

(** Witness of [secure_overwrite_and_delete_spec]: three passes over the
    three-byte key file; an absent path. *)
Lemma secure_overwrite_and_delete_witness :
  (secure_overwrite_and_delete "keys/none" 3 toy_keys
   = (Raise (FileNotFoundError "keyfile missing"), toy_keys))
  /\ exists w',
       secure_overwrite_and_delete "keys/k.key" 3 toy_keys = (Ok tt, w')
       /\ trace w'
          = trace toy_keys
            ++ map (EvFsync "keys/k.key")
                 (tape_images (entropy toy_keys) (drawn toy_keys)
                    (length [x0a; x0b; x0c]) (Z.to_nat 3))
            ++ [EvFsync "keys/k.key" (replicate (length [x0a; x0b; x0c]) x00);
                EvUnlink "keys/k.key"]
       /\ Z.of_nat (length (tape_images (entropy toy_keys) (drawn toy_keys)
                             (length [x0a; x0b; x0c]) (Z.to_nat 3))) = 3%Z
       /\ (forall img,
             img ∈ tape_images (entropy toy_keys) (drawn toy_keys)
                     (length [x0a; x0b; x0c]) (Z.to_nat 3) ->
             length img = length [x0a; x0b; x0c])
       /\ path_exists "keys/k.key" w' = (Ok false, w')
       /\ load_key "keys/k.key" w' = (Raise (FileNotFoundError "keys/k.key"), w').
Proof.
  split.
  - apply (proj1 (secure_overwrite_and_delete_spec toy_keys "keys/none" 3)).
    + by vm_compute.
    + apply not_elem_of_empty.
  - apply (proj2 (secure_overwrite_and_delete_spec toy_keys "keys/k.key" 3)).
    + by vm_compute.
    + apply not_elem_of_empty.
    + reflexivity.
    + lia.
Defined.

(** C10.  [api_wipekey] accepts every pass count from zero up.  With zero
    passes no random byte is drawn and no random image is written; the
    file is still overwritten with zeros in full, forced to stable
    storage and removed. *)
Theorem wipe_zero_passes (w : world) (key_name : string) (old : bytes) :
  files w !! path_join KEYS_DIR key_name = Some old ->
  path_join KEYS_DIR key_name ∉ dirs w ->
  io_budget w = None ->
  (forall passes, (0 <= passes)%Z ->
     exists w',
       api_wipekey key_name passes "CONFIRM_DESTROY" w = (Ok "key destroyed", w')
       /\ files w' !! path_join KEYS_DIR key_name = None)
  /\ exists w',
       api_wipekey key_name 0 "CONFIRM_DESTROY" w = (Ok "key destroyed", w')
       /\ secure_overwrite_and_delete (path_join KEYS_DIR key_name) 0 w = (Ok tt, w')
       /\ trace w'
          = trace w ++ [EvFsync (path_join KEYS_DIR key_name) (replicate (length old) x00);
                        EvUnlink (path_join KEYS_DIR key_name)]
       /\ drawn w' = drawn w
       /\ files w' !! path_join KEYS_DIR key_name = None.
Proof.
  intros Hf Hd Hb.
  assert (Hapi : forall passes w',
            secure_overwrite_and_delete (path_join KEYS_DIR key_name) passes w = (Ok tt, w') ->
            api_wipekey key_name passes "CONFIRM_DESTROY" w = (Ok "key destroyed", w')).
  { intros passes w' E. unfold api_wipekey.
    change (String.eqb "CONFIRM_DESTROY" "CONFIRM_DESTROY") with true. cbn [negb].
    erewrite bind_ok; last first.
    { unfold path_exists. rewrite Hf.
      rewrite (bool_decide_eq_true_2 (is_Some (Some old))) by eauto. reflexivity. }
    cbn [negb orb]. by erewrite bind_ok by exact E. }
  split.
  - intros passes _.
    destruct (wipe_run w _ passes old Hf Hb) as (w' & E & F & _).
    exists w'. split; [by apply Hapi|]. rewrite F. apply lookup_delete_eq.
  - destruct (wipe_run w _ 0 old Hf Hb) as (w' & E & F & _ & R & Tr).
    exists w'. split; [by apply Hapi|]. split; [done|].
    split; [exact Tr|]. split; [change (Z.to_nat 0) with 0 in R; lia|].
    rewrite F. apply lookup_delete_eq.
Qed.

(** Witness of [wipe_zero_passes]. *)
Lemma wipe_zero_passes_witness :
  (forall passes, (0 <= passes)%Z ->
     exists w',
       api_wipekey "k.key" passes "CONFIRM_DESTROY" toy_keys = (Ok "key destroyed", w')
       /\ files w' !! path_join KEYS_DIR "k.key" = None)
  /\ exists w',
       api_wipekey "k.key" 0 "CONFIRM_DESTROY" toy_keys = (Ok "key destroyed", w')
       /\ secure_overwrite_and_delete (path_join KEYS_DIR "k.key") 0 toy_keys = (Ok tt, w')
       /\ trace w'
          = trace toy_keys
            ++ [EvFsync (path_join KEYS_DIR "k.key") (replicate (length [x0a; x0b; x0c]) x00);
                EvUnlink (path_join KEYS_DIR "k.key")]
       /\ drawn w' = drawn toy_keys
       /\ files w' !! path_join KEYS_DIR "k.key" = None.
Proof.
  apply (wipe_zero_passes toy_keys "k.key" [x0a; x0b; x0c]).
  - by vm_compute.
  - apply not_elem_of_empty.
  - reflexivity.
Defined.

(** ** The job engine *)

Lemma quiet_refl (id : string) (w : world) : quiet id w w.
Proof. by repeat split. Qed.

Lemma quiet_trans (id : string) (w1 w2 w3 : world) :
  quiet id w1 w2 -> quiet id w2 w3 -> quiet id w1 w3.
Proof.
  intros (B1 & D1 & T1 & P1 & C1 & E1 & R1 & F1) (B2 & D2 & T2 & P2 & C2 & E2 & R2 & F2).
  repeat split; try congruence. intros p Hp. by rewrite F2, F1.
Qed.

Lemma alter_lookup_insert (id : string) (f : job -> job) (j : job) (js : gmap string job) :
  js !! id = Some j -> alter f id js = <[id := f j]> js.
Proof.
  intros Hj. apply map_eq. intros k. rewrite lookup_alter, lookup_insert.
  destruct (decide (id = k)) as [<-|]; [by rewrite Hj|done].
Qed.

Lemma update_job_step (w : world) (id : string) (f : job -> job) (j : job) :
  jobs w !! id = Some j ->
  exists w',
    update_job id f w = (Ok tt, w')
    /\ jobs w' !! id = Some (f j) /\ quiet id w w' /\ timeline w' = timeline w
    /\ ticks w' = ticks w /\ files w' = files w.
Proof.
  intros Hj. exists (set_jobs (alter f id) w). split; [reflexivity|].
  split.
  { destruct w; unfold_world. by rewrite (alter_lookup_insert _ _ j), lookup_insert_eq. }
  split; [|by destruct w]. destruct w. by repeat split.
Qed.

Lemma set_status_step (w : world) (id : string) (s : job_status) (j : job) :
  jobs w !! id = Some j ->
  exists w',
    set_status id s w = (Ok tt, w')
    /\ jobs w' !! id = Some (with_state s j) /\ quiet id w w'
    /\ timeline w' = timeline w ++ [(id, s)] /\ ticks w' = ticks w
    /\ files w' = files w.
Proof.
  intros Hj.
  destruct (update_job_step w id (with_state s) j Hj) as (w1 & E & J & Q & T & K & F).
  exists (set_timeline (fun tl => tl ++ [(id, s)]) w1). split.
  { unfold set_status. by erewrite bind_ok by exact E. }
  split; [by destruct w1|]. split.
  { eapply quiet_trans; [exact Q|]. destruct w1. by repeat split. }
  split; [destruct w1; unfold_world; by subst|]. by destruct w1.
Qed.

Lemma quiet_budget (id : string) (w w' : world) :
  quiet id w w' -> io_budget w = None -> io_budget w' = None.
Proof. intros (B & _) H. by rewrite B. Qed.

Lemma quiet_dirs (id p : string) (w w' : world) :
  quiet id w w' -> p ∉ dirs w -> p ∉ dirs w'.
Proof. intros (_ & D & _) H. by rewrite D. Qed.

Lemma quiet_clock (id : string) (w w' : world) :
  quiet id w w' -> clock w' = clock w.
Proof. by intros (_ & _ & _ & _ & C & _). Qed.

Lemma quiet_trace (id : string) (w w' : world) :
  quiet id w w' -> trace w' = trace w.
Proof. by intros (_ & _ & T & _). Qed.

Lemma quiet_files (id p : string) (w w' : world) :
  quiet id w w' -> p <> log_path id -> files w' !! p = files w !! p.
Proof. intros (_ & _ & _ & _ & _ & _ & _ & F) H. by apply F. Qed.

Lemma get_job_ok (w : world) (id : string) (j : job) :
  jobs w !! id = Some j -> get_job id w = (Ok j, w).
Proof. intros Hj. unfold get_job. by rewrite Hj. Qed.

Section JobFacts.

Variable utf8_encode : string -> bytes.
Variable private_key : Type.
Variable load_pem_private_key : bytes -> option private_key.
Variable rsa_sign : private_key -> bytes -> bytes.

#[local] Abbreviation run_job := (run utf8_encode private_key load_pem_private_key rsa_sign).
#[local] Abbreviation certify := (run_certify utf8_encode private_key load_pem_private_key rsa_sign).
#[local] Abbreviation sign := (sign_certificate utf8_encode private_key load_pem_private_key rsa_sign).

(** One call of [append_log] whose write succeeds: the line is added to
    the log of the job and the log file holds the whole log. *)
Lemma append_log_step (w : world) (id s : string) (j : job) :
  jobs w !! id = Some j -> io_budget w = None -> log_path id ∉ dirs w ->
  exists w',
    append_log utf8_encode id s w = (Ok tt, w')
    /\ jobs w' !! id
       = Some (with_log (job_log j +:+ log_line (clock w LOG_TIME (ticks w)) s) j)
    /\ quiet id w w' /\ timeline w' = timeline w /\ ticks w' = S (ticks w)
    /\ files w' !! log_path id
       = Some (utf8_encode (job_log j +:+ log_line (clock w LOG_TIME (ticks w)) s)).
Proof.
  intros Hj Hb Hd. unfold append_log.
  set (l := job_log j +:+ log_line (clock w LOG_TIME (ticks w)) s).
  set (w0 := set_ticks S w).
  assert (Hj0 : jobs w0 !! id = Some j) by (unfold w0; by destruct w).
  destruct (update_job_step w0 id (with_log l) j Hj0) as (w1 & E1 & J1 & Q1 & T1 & K1 & _).
  destruct Q1 as (B1 & D1 & Tr1 & P1 & C1 & En1 & R1 & F1).
  exists (set_files (<[log_path id := utf8_encode l]>) w1). split.
  { erewrite bind_ok; last by (unfold strftime; reflexivity).
    fold w0. erewrite bind_ok; last by apply get_job_ok.
    fold l. unfold set_log. erewrite bind_ok; last by exact E1.
    erewrite bind_ok; last by apply get_job_ok.
    unfold write_text. cbn [job_log with_log].
    apply write_bytes_ok.
    - rewrite B1. unfold w0. by destruct w.
    - rewrite D1. unfold w0. by destruct w. }
  split; [by destruct w1|]. split.
  { unfold quiet. destruct w1; unfold_world. subst. unfold w0. destruct w; unfold_world.
    repeat split; try done. intros p Hp. rewrite lookup_insert_ne by done. by apply F1. }
  split; [destruct w1; unfold_world; rewrite T1; unfold w0; by destruct w|].
  split; [destruct w1; unfold_world; rewrite K1; unfold w0; by destruct w|].
  destruct w1; unfold_world. by rewrite lookup_insert_eq.
Qed.

(** The handler of [run]: one log line, then [failed] and no success. *)
Lemma run_handler_step (w : world) (id : string) (e : exn) (j : job) :
  jobs w !! id = Some j -> io_budget w = None -> log_path id ∉ dirs w ->
  exists w',
    run_handler utf8_encode id e w = (Ok tt, w')
    /\ jobs w' !! id
       = Some (with_success false (with_state Failed
                 (with_log (job_log j +:+ stamp w 0 (handler_msg e)) j)))
    /\ quiet id w w' /\ timeline w' = timeline w ++ [(id, Failed)]
    /\ ticks w' = S (ticks w)
    /\ files w' !! log_path id
       = Some (utf8_encode (job_log j +:+ stamp w 0 (handler_msg e))).
Proof.
  intros Hj Hb Hd.
  destruct (append_log_step w id (handler_msg e) j Hj Hb Hd)
    as (w1 & E1 & J1 & Q1 & T1 & K1 & F1).
  destruct (set_status_step w1 id Failed _ J1) as (w2 & E2 & J2 & Q2 & T2 & K2 & F2).
  destruct (update_job_step w2 id (with_success false) _ J2)
    as (w3 & E3 & J3 & Q3 & T3 & K3 & F3).
  exists w3. split.
  { assert (E : (append_log utf8_encode id (handler_msg e) ;;
                 set_status id Failed ;; set_success id false) w = (Ok tt, w3)).
    { erewrite bind_ok by exact E1. erewrite bind_ok by exact E2. exact E3. }
    unfold run_handler. destruct e; exact E. }
  unfold stamp. rewrite Nat.add_0_r.
  split; [exact J3|]. split; [eauto using quiet_trans|].
  split; [congruence|]. split; [congruence|].
  by rewrite F3, F2.
Qed.

(** The start of [run]: the job is [running] and the first line is logged. *)
Lemma run_prologue (w : world) (id : string) (j : job) :
  jobs w !! id = Some j -> io_budget w = None -> log_path id ∉ dirs w ->
  exists w1,
    run_job id w
    = try_except (run_action utf8_encode id ;; certify id) (run_handler utf8_encode id) w1
    /\ jobs w1 !! id
       = Some (with_log (job_log j +:+ stamp w 0 (start_msg j)) (with_state Running j))
    /\ quiet id w w1 /\ timeline w1 = timeline w ++ [(id, Running)]
    /\ ticks w1 = S (ticks w).
Proof.
  intros Hj Hb Hd.
  destruct (set_status_step w id Running j Hj) as (w1 & E1 & J1 & Q1 & T1 & K1 & F1).
  destruct (append_log_step w1 id (start_msg (with_state Running j)) _ J1
              (quiet_budget _ _ _ Q1 Hb) (quiet_dirs _ _ _ _ Q1 Hd))
    as (w2 & E2 & J2 & Q2 & T2 & K2 & F2).
  exists w2. split.
  { unfold run. erewrite bind_ok by exact E1.
    erewrite bind_ok by (by apply get_job_ok).
    by erewrite bind_ok by exact E2. }
  unfold stamp. rewrite Nat.add_0_r, <- K1, <- (quiet_clock _ _ _ Q1).
  split; [exact J2|]. split; [eauto using quiet_trans|]. split; congruence.
Qed.

(** The branch of the manual-only systems: the guidance is logged and
    an exception is raised; no command is run. *)
Lemma run_action_manual (w : world) (id : string) (j : job) :
  jobs w !! id = Some j -> io_budget w = None -> log_path id ∉ dirs w ->
  job_os j = "windows" \/ job_os j = "macos" ->
  exists w',
    run_action utf8_encode id w = (Raise (Exception (manual_msg (job_os j))), w')
    /\ jobs w' !! id = Some (with_log (job_log j +:+ stamp w 0 (guidance (job_os j))) j)
    /\ quiet id w w' /\ timeline w' = timeline w /\ ticks w' = S (ticks w).
Proof.
  intros Hj Hb Hd Hos.
  destruct (append_log_step w id (guidance (job_os j)) j Hj Hb Hd)
    as (w1 & E1 & J1 & Q1 & T1 & K1 & F1).
  exists w1. unfold stamp. rewrite Nat.add_0_r.
  split; [|done].
  unfold run_action. erewrite bind_ok by (by apply get_job_ok).
  destruct Hos as [Hos | Hos]; rewrite Hos in *;
    cbn [String.eqb Ascii.eqb Bool.eqb andb];
    by erewrite bind_ok by exact E1.
Qed.

(** An exception raised inside [try] sends [run] through its handler. *)
Lemma try_raise {A} (c : M A) (h : exn -> M A) (e : exn) (w w' : world) :
  c w = (Raise e, w') -> try_except c h w = h e w'.
Proof. intros H. unfold try_except. by rewrite H. Qed.

(** C9: a job for windows or macos, whatever its action, runs no external
    command: [run] logs the guidance for manual action and the job ends
    in the state [failed], without success. *)
Theorem run_manual_os (w : world) (id : string) (j : job) :
  jobs w !! id = Some j ->
  job_os j = "windows" \/ job_os j = "macos" ->
  io_budget w = None -> log_path id ∉ dirs w ->
  exists w' j',
    run_job id w = (Ok tt, w')
    /\ trace w' = trace w
    /\ jobs w' !! id = Some j'
    /\ job_state j' = Failed /\ job_success j' = false
    /\ job_certificate j' = job_certificate j
    /\ job_log j'
       = ((job_log j +:+ stamp w 0 (start_msg j))
          +:+ stamp w 1 (guidance (job_os j)))
         +:+ stamp w 2 (handler_msg (Exception (manual_msg (job_os j))))
    /\ timeline w' = timeline w ++ [(id, Running); (id, Failed)]
    /\ api_status id w'
       = (Ok ("failed", job_log j', false), w').
Proof.
  intros Hj Hos Hb Hd.
  destruct (run_prologue w id j Hj Hb Hd) as (w1 & E1 & J1 & Q1 & T1 & K1).
  destruct (run_action_manual w1 id _ J1 (quiet_budget _ _ _ Q1 Hb)
              (quiet_dirs _ _ _ _ Q1 Hd) Hos)
    as (w2 & E2 & J2 & Q2 & T2 & K2).
  pose proof (quiet_trans _ _ _ _ Q1 Q2) as Q12.
  destruct (run_handler_step w2 id (Exception (manual_msg (job_os j))) _ J2
              (quiet_budget _ _ _ Q12 Hb) (quiet_dirs _ _ _ _ Q12 Hd))
    as (w3 & E3 & J3 & Q3 & T3 & K3 & F3).
  cbn [job_state job_success job_certificate job_log job_os
       with_state with_log with_success] in J3.
  unfold stamp in J3 |- *.
  rewrite (quiet_clock _ _ _ Q12), (quiet_clock _ _ _ Q1), K2, K1 in J3.
  rewrite !Nat.add_0_r in J3. rewrite !Nat.add_0_r.
  replace (ticks w + 1) with (S (ticks w)) by lia.
  replace (ticks w + 2) with (S (S (ticks w))) by lia.
  eexists w3, _. split.
  { rewrite E1. erewrite try_raise; [exact E3|].
    unfold mbind, M_bind. by rewrite E2. }
  split; [rewrite (quiet_trace _ _ _ Q3); apply (quiet_trace _ _ _ Q12)|].
  split; [exact J3|].
  cbn [job_state job_success job_certificate job_log
       with_state with_log with_success].
  repeat (split; [done|]).
  split; [rewrite T3, T2, T1; symmetry; apply (app_assoc (timeline w) [_] [_])|].
  unfold api_status. by rewrite J3.
Qed.

End JobFacts.

(** Witness of [run_manual_os]: a windows job on the toy machine. *)
Lemma run_manual_os_witness :
  let w := toy_queued "windows" "remove_bitlocker_protector" in
  let j := new_job "j1" "windows" "/dev/sdx" "remove_bitlocker_protector" in
  exists w' j',
    run toy_encode bytes toy_load toy_sign "j1" w = (Ok tt, w')
    /\ trace w' = trace w
    /\ jobs w' !! "j1" = Some j'
    /\ job_state j' = Failed /\ job_success j' = false
    /\ job_certificate j' = job_certificate j
    /\ job_log j'
       = ((job_log j +:+ stamp w 0 (start_msg j))
          +:+ stamp w 1 (guidance (job_os j)))
         +:+ stamp w 2 (handler_msg (Exception (manual_msg (job_os j))))
    /\ timeline w' = timeline w ++ [("j1", Running); ("j1", Failed)]
    /\ api_status "j1" w' = (Ok ("failed", job_log j', false), w').
Proof.
  intros w j.
  apply (run_manual_os toy_encode bytes toy_load toy_sign w "j1" j).
  - by vm_compute.
  - by left.
  - reflexivity.
  - apply not_elem_of_empty.
Defined.

(** ** Paths of the job engine *)

Lemma path_join_cons (d : string) (c : ascii) (s : string) :
  path_join d (String c s)
  = if Ascii.eqb c "/" then String c s else d +:+ "/" +:+ String c s.
Proof. unfold path_join. by destruct c as [[] [] [] [] [] [] [] []]. Qed.

Lemma append_nil_l (s : string) : EmptyString +:+ s = s.
Proof. reflexivity. Qed.

Lemma append_cons (c : ascii) (s t : string) : String c s +:+ t = String c (s +:+ t).
Proof. reflexivity. Qed.

Lemma append_inj_l (s a b : string) : s +:+ a = s +:+ b -> a = b.
Proof.
  induction s as [|c s IH]; [done|]. rewrite !append_cons. intros [= H]. auto.
Qed.

(** Two files the engine names after a job differ when their directories
    or their extensions do. *)
Lemma job_path_ne (d1 d2 : string) (c1 c2 : ascii) (e1 e2 : string) (id : string) :
  (forall s t, d1 +:+ String "/" s <> d2 +:+ String "/" t) \/
  (d1 = d2 /\ String c1 e1 <> String c2 e2) ->
  String c1 e1 <> String c2 e2 ->
  c1 <> "/"%char -> c2 <> "/"%char ->
  path_join d1 (id +:+ String c1 e1) <> path_join d2 (id +:+ String c2 e2).
Proof.
  intros Hd He H1 H2. destruct id as [|c s];
    rewrite ?append_nil_l, ?append_cons.
  - rewrite !path_join_cons.
    rewrite (proj2 (Ascii.eqb_neq _ _) H1), (proj2 (Ascii.eqb_neq _ _) H2).
    destruct Hd as [Hd | [-> Hd]]; [apply Hd|].
    intros H. by do 2 apply append_inj_l in H.
  - rewrite !path_join_cons. destruct (Ascii.eqb_spec c "/") as [->|Hc].
    + intros [= H]. by apply append_inj_l in H.
    + destruct Hd as [Hd | [-> Hd]]; [apply Hd|].
      intros H. do 2 apply append_inj_l in H. injection H as H.
      by apply append_inj_l in H.
Qed.

Lemma log_path_not_cert (id : string) : log_path id <> cert_path id.
Proof.
  apply job_path_ne; [left; intros s t; discriminate|discriminate..].
Qed.

Lemma log_path_not_sig (id : string) : log_path id <> sig_path id.
Proof.
  apply job_path_ne; [left; intros s t; discriminate|discriminate..].
Qed.

Lemma cert_path_not_sig (id : string) : cert_path id <> sig_path id.
Proof.
  apply job_path_ne; [right; split; [done|discriminate]|discriminate..].
Qed.

(** A file named after a job is none of the fixed paths of the engine. *)
Lemma job_path_fixed (d e p : string) (c : ascii) (id : string) :
  c <> "/"%char ->
  (forall s, d +:+ String "/" s <> p) ->
  (forall s, String "/" s <> p) ->
  path_join d (id +:+ String c e) <> p.
Proof.
  intros Hc Hd Hp. destruct id as [|c' s];
    rewrite ?append_nil_l, ?append_cons, path_join_cons.
  - rewrite (proj2 (Ascii.eqb_neq _ _) Hc). apply Hd.
  - destruct (Ascii.eqb_spec c' "/") as [->|_]; [apply Hp|apply Hd].
Qed.

Lemma log_path_not_key (id : string) : log_path id <> RSA_PRIV.
Proof. apply job_path_fixed; [discriminate|intros s; discriminate..]. Qed.

Lemma log_path_not_dir (id : string) : log_path id <> CERT_DIR.
Proof. apply job_path_fixed; [discriminate|intros s; discriminate..]. Qed.

Lemma cert_path_not_dir (id : string) : cert_path id <> CERT_DIR.
Proof. apply job_path_fixed; [discriminate|intros s; discriminate..]. Qed.

Lemma sig_path_not_dir (id : string) : sig_path id <> CERT_DIR.
Proof. apply job_path_fixed; [discriminate|intros s; discriminate..]. Qed.

(** ** Runs of linux jobs *)

Lemma check_output_zero (w : world) (c : command) :
  procs w c = ExitZero ->
  check_output c w = (Ok tt, set_trace (fun t => t ++ [EvExec c]) w).
Proof. intros H. unfold check_output. by rewrite H. Qed.

Lemma strftime_step (w : world) (id fmt : string) :
  exists w',
    strftime fmt w = (Ok (clock w fmt (ticks w)), w')
    /\ jobs w' = jobs w /\ quiet id w w' /\ timeline w' = timeline w
    /\ ticks w' = S (ticks w) /\ files w' = files w.
Proof. exists (set_ticks S w). destruct w. by repeat split. Qed.

Lemma key_unusable_same {K : Type} (load : bytes -> option K) (w w' : world) :
  files w' !! RSA_PRIV = files w !! RSA_PRIV ->
  key_unusable K load w -> key_unusable K load w'.
Proof. unfold key_unusable. by intros ->. Qed.

(** Running a command leaves everything but the trace alone. *)
Lemma exec_frame (id : string) (c : command) (w : world) :
  let w' := set_trace (fun t => t ++ [EvExec c]) w in
  jobs w' = jobs w /\ io_budget w' = io_budget w /\ dirs w' = dirs w
  /\ clock w' = clock w /\ ticks w' = ticks w /\ timeline w' = timeline w
  /\ files w' = files w /\ procs w' = procs w
  /\ trace w' = trace w ++ [EvExec c].
Proof. by destruct w. Qed.

Section JobRuns.

Variable utf8_encode : string -> bytes.
Variable private_key : Type.
Variable load_pem_private_key : bytes -> option private_key.
Variable rsa_sign : private_key -> bytes -> bytes.

#[local] Abbreviation run_job := (run utf8_encode private_key load_pem_private_key rsa_sign).
#[local] Abbreviation certify := (run_certify utf8_encode private_key load_pem_private_key rsa_sign).
#[local] Abbreviation sign := (sign_certificate utf8_encode private_key load_pem_private_key rsa_sign).
#[local] Abbreviation unusable := (key_unusable private_key load_pem_private_key).

(** Without a usable key, signing raises and leaves the world alone; the
    exception is one the catch-all clause of [run] handles. *)
Lemma sign_unusable (w : world) :
  unusable w ->
  exists e,
    (forall payload, sign payload w = (Raise e, w))
    /\ handler_msg e = "Exception: " +:+ exn_str e.
Proof.
  unfold key_unusable, sign_certificate, read_bytes, mbind, M_bind.
  destruct (files w !! RSA_PRIV) as [pem|].
  - intros ->. by eexists.
  - intros _. case_bool_decide; by eexists.
Qed.

(** The linux branch, up to the command: the command line is logged. *)
Lemma run_action_linux (w : world) (id : string) (j : job) (c : command) :
  jobs w !! id = Some j -> io_budget w = None -> log_path id ∉ dirs w ->
  job_os j = "linux" -> wipe_cmd j = Some c ->
  exists w1,
    run_action utf8_encode id w = check_output c w1
    /\ jobs w1 !! id
       = Some (with_log (job_log j +:+ stamp w 0 ("Running: " +:+ cmd_text c)) j)
    /\ quiet id w w1 /\ timeline w1 = timeline w /\ ticks w1 = S (ticks w).
Proof.
  intros Hj Hb Hd Hos Hc.
  destruct (append_log_step utf8_encode w id ("Running: " +:+ cmd_text c) j Hj Hb Hd)
    as (w1 & E1 & J1 & Q1 & T1 & K1 & F1).
  exists w1. unfold stamp. rewrite Nat.add_0_r. split; [|done].
  unfold run_action. erewrite bind_ok by (by apply get_job_ok).
  rewrite Hos. change (String.eqb "linux" "linux") with true. cbv iota.
  unfold wipe_cmd in Hc.
  destruct (String.eqb (job_action j) "luks_killslot").
  { injection Hc as <-. by erewrite bind_ok by exact E1. }
  destruct (String.eqb (job_action j) "zero_header"); [|done].
  injection Hc as <-. by erewrite bind_ok by exact E1.
Qed.

(** The certificate part when the key is unusable: the job is marked
    successful and [finished], then signing raises. *)
Lemma run_certify_unsigned (w : world) (id : string) (j : job) :
  jobs w !! id = Some j -> io_budget w = None -> log_path id ∉ dirs w ->
  unusable w ->
  exists e w',
    certify id w = (Raise e, w')
    /\ handler_msg e = "Exception: " +:+ exn_str e
    /\ jobs w' !! id
       = Some (with_state Finished (with_success true
                 (with_log (job_log j
                            +:+ stamp w 0 "Wipe command completed successfully") j)))
    /\ quiet id w w' /\ timeline w' = timeline w ++ [(id, Finished)]
    /\ ticks w' = S (S (ticks w)).
Proof.
  intros Hj Hb Hd Hk.
  destruct (append_log_step utf8_encode w id "Wipe command completed successfully" j Hj Hb Hd)
    as (w1 & E1 & J1 & Q1 & T1 & K1 & F1).
  destruct (update_job_step w1 id (with_success true) _ J1)
    as (w2 & E2 & J2 & Q2 & T2 & K2 & F2).
  destruct (set_status_step w2 id Finished _ J2) as (w3 & E3 & J3 & Q3 & T3 & K3 & F3).
  destruct (strftime_step w3 id "%Y-%m-%dT%H:%M:%SZ") as (w4 & E4 & J4 & Q4 & T4 & K4 & F4).
  pose proof (quiet_trans _ _ _ _ (quiet_trans _ _ _ _ (quiet_trans _ _ _ _ Q1 Q2) Q3) Q4)
    as Q.
  destruct (sign_unusable w4) as (e & Es & He).
  { apply (key_unusable_same _ w); [|done].
    apply (quiet_files _ _ _ _ Q). apply not_eq_sym, log_path_not_key. }
  exists e, w4. split.
  { unfold run_certify. erewrite bind_ok by exact E1.
    unfold set_success. erewrite bind_ok by exact E2.
    erewrite bind_ok by exact E3.
    erewrite bind_ok by (by apply get_job_ok).
    erewrite bind_ok by exact E4.
    unfold mbind, M_bind. by rewrite Es. }
  split; [done|]. unfold stamp. rewrite Nat.add_0_r.
  split; [by rewrite J4|]. split; [done|]. split; congruence.
Qed.

(** A linux job whose command exits with status zero while the signing
    key is unusable: the whole run, step by step. *)
Lemma run_unsigned (w : world) (id : string) (j : job) (c : command) :
  jobs w !! id = Some j -> job_os j = "linux" -> wipe_cmd j = Some c ->
  procs w c = ExitZero -> unusable w ->
  io_budget w = None -> log_path id ∉ dirs w ->
  exists e w',
    run_job id w = (Ok tt, w')
    /\ trace w' = trace w ++ [EvExec c]
    /\ jobs w' !! id
       = Some (Job (job_id j) (job_os j) (job_target j) (job_action j) Failed
                 ((((job_log j +:+ stamp w 0 (start_msg j))
                    +:+ stamp w 1 ("Running: " +:+ cmd_text c))
                   +:+ stamp w 2 "Wipe command completed successfully")
                  +:+ stamp w 4 ("Exception: " +:+ exn_str e))
                 false (job_certificate j))
    /\ timeline w' = timeline w ++ [(id, Running); (id, Finished); (id, Failed)]
    /\ dirs w' = dirs w
    /\ (forall p, p <> log_path id -> files w' !! p = files w !! p).
Proof.
  intros Hj Hos Hc Hp Hk Hb Hd.
  destruct (run_prologue utf8_encode private_key load_pem_private_key rsa_sign
              w id j Hj Hb Hd) as (w1 & E1 & J1 & Q1 & T1 & K1).
  destruct (run_action_linux w1 id _ c J1 (quiet_budget _ _ _ Q1 Hb)
              (quiet_dirs _ _ _ _ Q1 Hd) Hos Hc)
    as (w2 & E2 & J2 & Q2 & T2 & K2).
  pose proof (quiet_trans _ _ _ _ Q1 Q2) as Q12.
  destruct (exec_frame id c w2) as (Xj & Xb & Xd & Xc & Xk & Xt & Xf & Xp & Xr).
  set (w3 := set_trace (fun t => t ++ [EvExec c]) w2) in *.
  assert (J3 : jobs w3 !! id = jobs w2 !! id) by (by rewrite Xj).
  rewrite J2 in J3.
  destruct (run_certify_unsigned w3 id _ J3) as (e & w4 & E4 & He & J4 & Q4 & T4 & K4).
  { rewrite Xb. apply (quiet_budget _ _ _ Q12 Hb). }
  { rewrite Xd. apply (quiet_dirs _ _ _ _ Q12 Hd). }
  { apply (key_unusable_same _ w); [|done].
    rewrite Xf. apply (quiet_files _ _ _ _ Q12). apply not_eq_sym, log_path_not_key. }
  assert (B4 : io_budget w4 = None).
  { apply (quiet_budget _ _ _ Q4). rewrite Xb. apply (quiet_budget _ _ _ Q12 Hb). }
  assert (D4 : log_path id ∉ dirs w4).
  { apply (quiet_dirs _ _ _ _ Q4). rewrite Xd. apply (quiet_dirs _ _ _ _ Q12 Hd). }
  destruct (run_handler_step utf8_encode w4 id e _ J4 B4 D4)
    as (w5 & E5 & J5 & Q5 & T5 & K5 & F5).
  exists e, w5. split.
  { rewrite E1. erewrite try_raise; [exact E5|].
    unfold mbind, M_bind. rewrite E2, check_output_zero; [exact E4|].
    rewrite (proj1 (proj2 (proj2 (proj2 Q12)))). exact Hp. }
  split.
  { rewrite (quiet_trace _ _ _ Q5), (quiet_trace _ _ _ Q4), Xr.
    by rewrite (quiet_trace _ _ _ Q12). }
  split.
  { rewrite J5, He. unfold stamp.
    rewrite (quiet_clock _ _ _ Q4), Xc, (quiet_clock _ _ _ Q12), (quiet_clock _ _ _ Q1).
    rewrite K4, Xk, K2, K1, !Nat.add_0_r.
    replace (ticks w + 1) with (S (ticks w)) by lia.
    replace (ticks w + 2) with (S (S (ticks w))) by lia.
    replace (ticks w + 4) with (S (S (S (S (ticks w))))) by lia.
    reflexivity. }
  split.
  { rewrite T5, T4, Xt, T2, T1. rewrite <- !app_assoc. reflexivity. }
  split.
  { destruct Q5 as (_ & -> & _). destruct Q4 as (_ & -> & _). rewrite Xd.
    by destruct Q12 as (_ & -> & _). }
  intros p Hne.
  rewrite (quiet_files _ _ _ _ Q5 Hne), (quiet_files _ _ _ _ Q4 Hne), Xf.
  apply (quiet_files _ _ _ _ Q12 Hne).
Qed.


(** C6: in the same run the status is assigned [finished] before the
    certificate is signed, and the handler then assigns [failed]: the
    assignments to the status are [running], [finished], [failed], in
    this order, and a status request after the run is answered [failed]. *)
Theorem run_finished_then_failed (w : world) (id : string) (j : job) (c : command) :
  jobs w !! id = Some j -> job_os j = "linux" -> wipe_cmd j = Some c ->
  procs w c = ExitZero -> unusable w ->
  io_budget w = None -> log_path id ∉ dirs w ->
  exists w' l,
    run_job id w = (Ok tt, w')
    /\ timeline w' = timeline w ++ [(id, Running); (id, Finished); (id, Failed)]
    /\ api_status id w' = (Ok (status_str Failed, l, false), w').
Proof.
  intros Hj Hos Hc Hp Hk Hb Hd.
  destruct (run_unsigned w id j c Hj Hos Hc Hp Hk Hb Hd)
    as (e & w' & E & _ & J & T & _).
  eexists w', _. split; [exact E|]. split; [exact T|].
  unfold api_status. by rewrite J.
Qed.

End JobRuns.



(** Witness of [run_finished_then_failed]: the header job on the toy
    machine, which has no key file. *)
Lemma run_finished_then_failed_witness :
  let w := toy_queued "linux" "zero_header" in
  exists w' l,
    run toy_encode bytes toy_load toy_sign "j1" w = (Ok tt, w')
    /\ timeline w'
       = timeline w ++ [("j1", Running); ("j1", Finished); ("j1", Failed)]
    /\ api_status "j1" w' = (Ok (status_str Failed, l, false), w').
Proof.
  intros w.
  apply (run_finished_then_failed toy_encode bytes toy_load toy_sign w "j1"
           (new_job "j1" "linux" "/dev/sdx" "zero_header")
           (zero_header_cmd "/dev/sdx")).
  - by vm_compute.
  - reflexivity.
  - reflexivity.
  - reflexivity.
  - by vm_compute.
  - reflexivity.
  - apply not_elem_of_empty.
Defined.

(** ** Certificates *)

(** [sorted(cert.items())] for the certificate of [run]. *)
Lemma sort_make_cert (j : job) (ts : string) :
  sort_items (make_cert j ts)
  = [("action", job_action j); ("job_id", job_id j); ("os", job_os j);
     ("status", "success"); ("target", job_target j); ("timestamp", ts)].
Proof. reflexivity. Qed.

(** The text written to the certificate file is not the text that is
    signed: the first key of the one is [job_id], of the other [action]. *)
Lemma json_dumps_make_cert (j : job) (ts : string) :
  json_dumps false (make_cert j ts) <> json_dumps true (make_cert j ts).
Proof.
  intros H. apply (f_equal (String.get 2)) in H. vm_compute in H. discriminate.
Qed.

(** Opening a file for writing and writing it once. *)
Lemma open_write_ok {B} (w : world) (p : string) (d : bytes) (k : M B) :
  io_budget w = None -> p ∉ dirs w ->
  (open_wb p ;; fwrite p d ;; k) w = k (set_files (<[p := d]>) w).
Proof.
  intros Hb Hd.
  change ((open_wb p ≫= (fun _ => (fun _ => fwrite p d) tt ≫= (fun _ => k))) w
          = k (set_files (<[p := d]>) w)).
  rewrite <- (bind_assoc (open_wb p) (fun _ => fwrite p d) (fun _ => k)).
  pose proof (write_bytes_ok w p d Hb Hd) as H. unfold write_bytes in H.
  by erewrite bind_ok by exact H.
Qed.

Section Certificates.

Variable utf8_encode : string -> bytes.
Variable private_key : Type.
Variable load_pem_private_key : bytes -> option private_key.
Variable rsa_sign : private_key -> bytes -> bytes.

#[local] Abbreviation run_job := (run utf8_encode private_key load_pem_private_key rsa_sign).
#[local] Abbreviation certify := (run_certify utf8_encode private_key load_pem_private_key rsa_sign).
#[local] Abbreviation sign := (sign_certificate utf8_encode private_key load_pem_private_key rsa_sign).

Lemma sign_ok (w : world) (pem : bytes) (priv : private_key) (payload : dict) :
  files w !! RSA_PRIV = Some pem -> load_pem_private_key pem = Some priv ->
  sign payload w = (Ok (rsa_sign priv (utf8_encode (json_dumps true payload))), w).
Proof.
  intros Hf Hl. unfold sign_certificate, read_bytes, mbind, M_bind.
  by rewrite Hf, Hl.
Qed.

(** The certificate part with a usable key. *)
Lemma run_certify_signed (w : world) (id : string) (j : job)
    (pem : bytes) (priv : private_key) :
  jobs w !! id = Some j -> io_budget w = None ->
  log_path id ∉ dirs w -> cert_path id ∉ dirs w -> sig_path id ∉ dirs w ->
  files w !! CERT_DIR = None ->
  files w !! RSA_PRIV = Some pem -> load_pem_private_key pem = Some priv ->
  let cert := make_cert j (clock w "%Y-%m-%dT%H:%M:%SZ" (S (ticks w))) in
  exists w',
    certify id w = (Ok tt, w')
    /\ jobs w' !! id
       = Some (Job (job_id j) (job_os j) (job_target j) (job_action j) Finished
                 ((job_log j +:+ stamp w 0 "Wipe command completed successfully")
                  +:+ stamp w 2 "Certificate generated")
                 true (Some (cert_path id)))
    /\ files w' !! cert_path id = Some (utf8_encode (json_dumps false cert))
    /\ files w' !! sig_path id
       = Some (rsa_sign priv (utf8_encode (json_dumps true cert)))
    /\ timeline w' = timeline w ++ [(id, Finished)]
    /\ trace w' = trace w
    /\ dirs w' = {[CERT_DIR]} ∪ dirs w
    /\ io_budget w' = None
    /\ (forall p, p <> log_path id -> p <> cert_path id -> p <> sig_path id ->
                  files w' !! p = files w !! p).
Proof.
  intros Hj Hb Hd Hdc Hds Hcd Hf Hl cert.
  destruct (append_log_step utf8_encode w id "Wipe command completed successfully" j Hj Hb Hd)
    as (w1 & E1 & J1 & Q1 & T1 & K1 & F1).
  destruct (update_job_step w1 id (with_success true) _ J1)
    as (w2 & E2 & J2 & Q2 & T2 & K2 & F2).
  destruct (set_status_step w2 id Finished _ J2) as (w3 & E3 & J3 & Q3 & T3 & K3 & F3).
  destruct (strftime_step w3 id "%Y-%m-%dT%H:%M:%SZ") as (w4 & E4 & J4 & Q4 & T4 & K4 & F4).
  pose proof (quiet_trans _ _ _ _ (quiet_trans _ _ _ _ (quiet_trans _ _ _ _ Q1 Q2) Q3) Q4)
    as Q.
  assert (Ets : clock w3 "%Y-%m-%dT%H:%M:%SZ" (ticks w3)
                = clock w "%Y-%m-%dT%H:%M:%SZ" (S (ticks w))).
  { rewrite (quiet_clock _ _ _ (quiet_trans _ _ _ _ (quiet_trans _ _ _ _ Q1 Q2) Q3)).
    by rewrite K3, K2, K1. }
  (* the five file operations *)
  set (sig := rsa_sign priv (utf8_encode (json_dumps true cert))).
  set (w5 := set_dirs (fun ds => {[CERT_DIR]} ∪ ds) w4).
  set (w6 := set_files (<[cert_path id := utf8_encode (json_dumps false cert)]>) w5).
  set (w7 := set_files (<[sig_path id := sig]>) w6).
  assert (B4 : io_budget w4 = None) by apply (quiet_budget _ _ _ Q Hb).
  assert (D4 : dirs w4 = dirs w) by (by destruct Q as (_ & D & _)).
  assert (J7 : jobs w7 !! id = jobs w3 !! id).
  { unfold w7, w6, w5. rewrite <- J4. by destruct w4. }
  rewrite J3 in J7.
  destruct (update_job_step w7 id (with_certificate (cert_path id)) _ J7)
    as (w8 & E8 & J8 & Q8 & T8 & K8 & F8).
  assert (B7 : io_budget w7 = None) by (unfold w7, w6, w5; by destruct w4).
  assert (D7 : dirs w7 = {[CERT_DIR]} ∪ dirs w).
  { unfold w7, w6, w5. rewrite <- D4. by destruct w4. }
  assert (Hnd : forall p, p <> CERT_DIR -> p ∉ dirs w -> p ∉ dirs w7).
  { intros p Hp Hn. rewrite D7. set_solver. }
  destruct (append_log_step utf8_encode w8 id "Certificate generated" _ J8)
    as (w9 & E9 & J9 & Q9 & T9 & K9 & F9).
  { apply (quiet_budget _ _ _ Q8 B7). }
  { apply (quiet_dirs _ _ _ _ Q8). apply Hnd; [apply log_path_not_dir|done]. }
  exists w9. split.
  { unfold run_certify. erewrite bind_ok by exact E1.
    unfold set_success. erewrite bind_ok by exact E2.
    erewrite bind_ok by exact E3.
    erewrite bind_ok by (by apply get_job_ok).
    erewrite bind_ok by exact E4.
    cbn [job_id job_os job_target job_action with_state with_success with_log make_cert].
    rewrite Ets.
    erewrite bind_ok; last first.
    { apply sign_ok with (pem := pem); [|exact Hl].
      rewrite (quiet_files _ _ _ _ Q); [exact Hf|]. apply not_eq_sym, log_path_not_key. }
    erewrite (bind_ok (mkdir_p CERT_DIR) _ w4 w5); last first.
    { unfold mkdir_p. rewrite bool_decide_eq_false_2; [done|].
      rewrite (quiet_files _ _ _ _ Q), Hcd; [by intros [? ?]|].
      apply not_eq_sym, log_path_not_dir. }
    fold (cert_path id). fold (sig_path id).
    rewrite open_write_ok; cycle 1.
    { unfold w5. by destruct w4. }
    { unfold w5. destruct w4; unfold_world. cbn [dirs] in D4. subst.
      pose proof (cert_path_not_dir id). set_solver. }
    rewrite open_write_ok; cycle 1.
    { unfold w5. by destruct w4. }
    { unfold w5. destruct w4; unfold_world. cbn [dirs] in D4. subst.
      pose proof (sig_path_not_dir id). set_solver. }
    unfold set_certificate.
    fold cert. fold w6. fold sig. fold w7.
    erewrite bind_ok by exact E8. exact E9. }
  assert (C7 : clock w7 = clock w).
  { rewrite <- (quiet_clock _ _ _ Q). unfold w7, w6, w5. by destruct w4. }
  assert (K7 : ticks w7 = S (S (ticks w))).
  { rewrite <- K1, <- K2, <- K3, <- K4. unfold w7, w6, w5. by destruct w4. }
  assert (F7 : files w7
               = <[sig_path id := sig]>
                   (<[cert_path id := utf8_encode (json_dumps false cert)]> (files w4))).
  { unfold w7, w6, w5. by destruct w4. }
  split.
  { rewrite J9. unfold stamp.
    rewrite (quiet_clock _ _ _ Q8), C7, K8, K7, Nat.add_0_r.
    replace (ticks w + 2) with (S (S (ticks w))) by lia. reflexivity. }
  split.
  { rewrite (quiet_files _ _ _ _ Q9) by apply not_eq_sym, log_path_not_cert.
    rewrite F8, F7, lookup_insert_ne by apply not_eq_sym, cert_path_not_sig.
    by rewrite lookup_insert_eq. }
  split.
  { rewrite (quiet_files _ _ _ _ Q9) by apply not_eq_sym, log_path_not_sig.
    by rewrite F8, F7, lookup_insert_eq. }
  split.
  { rewrite T9, T8. unfold w7, w6, w5.
    transitivity (timeline w4); [by destruct w4|]. congruence. }
  split.
  { rewrite (quiet_trace _ _ _ Q9), (quiet_trace _ _ _ Q8).
    transitivity (trace w4); [unfold w7, w6, w5; by destruct w4|].
    apply (quiet_trace _ _ _ Q). }
  split.
  { destruct Q9 as (_ & -> & _). destruct Q8 as (_ & -> & _). exact D7. }
  split; [apply (quiet_budget _ _ _ Q9), (quiet_budget _ _ _ Q8), B7|].
  intros p Hp1 Hp2 Hp3.
  rewrite (quiet_files _ _ _ _ Q9 Hp1), F8, F7.
  rewrite !lookup_insert_ne by done.
  apply (quiet_files _ _ _ _ Q Hp1).
Qed.

Lemma try_ok {A} (c : M A) (h : exn -> M A) (a : A) (w w' : world) :
  c w = (Ok a, w') -> try_except c h w = (Ok a, w').
Proof. intros H. unfold try_except. by rewrite H. Qed.

(** A linux job whose command exits with status zero, with a usable key:
    the whole run, step by step. *)
Lemma run_signed (w : world) (id : string) (j : job) (c : command)
    (pem : bytes) (priv : private_key) :
  jobs w !! id = Some j -> job_os j = "linux" -> wipe_cmd j = Some c ->
  procs w c = ExitZero ->
  files w !! RSA_PRIV = Some pem -> load_pem_private_key pem = Some priv ->
  io_budget w = None ->
  log_path id ∉ dirs w -> cert_path id ∉ dirs w -> sig_path id ∉ dirs w ->
  files w !! CERT_DIR = None ->
  let cert := make_cert j (clock w "%Y-%m-%dT%H:%M:%SZ" (ticks w + 3)) in
  exists w',
    run_job id w = (Ok tt, w')
    /\ trace w' = trace w ++ [EvExec c]
    /\ jobs w' !! id
       = Some (Job (job_id j) (job_os j) (job_target j) (job_action j) Finished
                 ((((job_log j +:+ stamp w 0 (start_msg j))
                    +:+ stamp w 1 ("Running: " +:+ cmd_text c))
                   +:+ stamp w 2 "Wipe command completed successfully")
                  +:+ stamp w 4 "Certificate generated")
                 true (Some (cert_path id)))
    /\ files w' !! cert_path id = Some (utf8_encode (json_dumps false cert))
    /\ files w' !! sig_path id
       = Some (rsa_sign priv (utf8_encode (json_dumps true cert)))
    /\ timeline w' = timeline w ++ [(id, Running); (id, Finished)]
    /\ dirs w' = {[CERT_DIR]} ∪ dirs w
    /\ (forall p, p <> log_path id -> p <> cert_path id -> p <> sig_path id ->
                  files w' !! p = files w !! p).
Proof.
  intros Hj Hos Hc Hp Hf Hl Hb Hd Hdc Hds Hcd cert.
  destruct (run_prologue utf8_encode private_key load_pem_private_key rsa_sign
              w id j Hj Hb Hd) as (w1 & E1 & J1 & Q1 & T1 & K1).
  destruct (run_action_linux utf8_encode w1 id _ c J1 (quiet_budget _ _ _ Q1 Hb)
              (quiet_dirs _ _ _ _ Q1 Hd) Hos Hc)
    as (w2 & E2 & J2 & Q2 & T2 & K2).
  pose proof (quiet_trans _ _ _ _ Q1 Q2) as Q12.
  destruct (exec_frame id c w2) as (Xj & Xb & Xd & Xc & Xk & Xt & Xf & Xp & Xr).
  set (w3 := set_trace (fun t => t ++ [EvExec c]) w2) in *.
  assert (J3 : jobs w3 !! id = jobs w2 !! id) by (by rewrite Xj).
  rewrite J2 in J3.
  assert (D3 : dirs w3 = dirs w) by (rewrite Xd; by destruct Q12 as (_ & D & _)).
  assert (F3 : forall p, p <> log_path id -> files w3 !! p = files w !! p).
  { intros p Hne. rewrite Xf. apply (quiet_files _ _ _ _ Q12 Hne). }
  destruct (run_certify_signed w3 id _ pem priv J3)
    as (w4 & E4 & J4 & Fc & Fs & T4 & Tr4 & D4 & _ & F4).
  { rewrite Xb. apply (quiet_budget _ _ _ Q12 Hb). }
  { by rewrite D3. }
  { by rewrite D3. }
  { by rewrite D3. }
  { rewrite F3; [done|]. apply not_eq_sym, log_path_not_dir. }
  { rewrite F3; [done|]. apply not_eq_sym, log_path_not_key. }
  { done. }
  assert (C3 : clock w3 = clock w).
  { rewrite Xc. apply (quiet_clock _ _ _ Q12). }
  assert (K3 : ticks w3 = S (S (ticks w))) by congruence.
  cbn [job_id job_os job_target job_action job_log with_state with_log make_cert]
    in J4, Fc, Fs.
  unfold stamp in J4 |- *.
  rewrite C3, K3, (quiet_clock _ _ _ Q1), K1, !Nat.add_0_r in J4.
  rewrite C3, K3 in Fc, Fs.
  exists w4. split.
  { rewrite E1. apply try_ok.
    unfold mbind, M_bind. rewrite E2, check_output_zero; [exact E4|].
    rewrite (proj1 (proj2 (proj2 (proj2 Q12)))). exact Hp. }
  split; [rewrite Tr4, Xr; by rewrite (quiet_trace _ _ _ Q12)|].
  replace (ticks w + 1) with (S (ticks w)) by lia.
  replace (ticks w + 2) with (S (S (ticks w))) by lia.
  replace (ticks w + 4) with (S (S (S (S (ticks w))))) by lia.
  rewrite !Nat.add_0_r.
  replace (S (S (ticks w)) + 2) with (S (S (S (S (ticks w))))) in J4 by lia.
  split; [exact J4|].
  unfold cert. replace (ticks w + 3) with (S (S (S (ticks w)))) by lia.
  split; [exact Fc|]. split; [exact Fs|].
  split; [rewrite T4, Xt, T2, T1; by rewrite <- app_assoc|].
  split; [by rewrite D4, D3|].
  intros p H1 H2 H3. rewrite F4 by done. by apply F3.
Qed.

(** C3: the certificate file of a successful run holds the dictionary in
    the order its keys were written, while the signature beside it was
    made over the dictionary with its keys sorted; the two byte strings
    differ, whatever the job. *)
Theorem run_payload_not_signed (w : world) (id : string) (j : job) (c : command)
    (pem : bytes) (priv : private_key) :
  (forall s t, utf8_encode s = utf8_encode t -> s = t) ->
  jobs w !! id = Some j -> job_os j = "linux" -> wipe_cmd j = Some c ->
  procs w c = ExitZero ->
  files w !! RSA_PRIV = Some pem -> load_pem_private_key pem = Some priv ->
  io_budget w = None ->
  log_path id ∉ dirs w -> cert_path id ∉ dirs w -> sig_path id ∉ dirs w ->
  files w !! CERT_DIR = None ->
  exists w' payload signed,
    run_job id w = (Ok tt, w')
    /\ files w' !! cert_path id = Some payload
    /\ files w' !! sig_path id = Some (rsa_sign priv signed)
    /\ (exists cert, payload = utf8_encode (json_dumps false cert)
                     /\ signed = utf8_encode (json_dumps true cert))
    /\ payload <> signed.
Proof.
  intros Hinj Hj Hos Hc Hp Hf Hl Hb Hd Hdc Hds Hcd.
  destruct (run_signed w id j c pem priv Hj Hos Hc Hp Hf Hl Hb Hd Hdc Hds Hcd)
    as (w' & E & _ & _ & Fc & Fs & _).
  eexists w', _, _. split; [exact E|]. split; [exact Fc|]. split; [exact Fs|].
  split; [by eexists|].
  intros H. apply Hinj in H. by apply json_dumps_make_cert in H.
Qed.

End Certificates.

Lemma toy_encode_inj (s t : string) : toy_encode s = toy_encode t -> s = t.
Proof.
  intros H. apply (f_equal toy_decode) in H. rewrite !toy_roundtrip in H.
  by injection H.
Qed.

(** Witness of [run_payload_not_signed]: the key-slot job on the toy
    machine with a key in place. *)
Lemma run_payload_not_signed_witness :
  let w := toy_signing "linux" "luks_killslot" in
  exists w' payload signed,
    run toy_encode bytes toy_load toy_sign "j1" w = (Ok tt, w')
    /\ files w' !! cert_path "j1" = Some payload
    /\ files w' !! sig_path "j1" = Some (toy_sign [x2d; x2d] signed)
    /\ (exists cert, payload = toy_encode (json_dumps false cert)
                     /\ signed = toy_encode (json_dumps true cert))
    /\ payload <> signed.
Proof.
  intros w.
  apply (run_payload_not_signed toy_encode bytes toy_load toy_sign w "j1"
           (new_job "j1" "linux" "/dev/sdx" "luks_killslot")
           (killslot_cmd "/dev/sdx") [x2d; x2d] [x2d; x2d]).
  - exact toy_encode_inj.
  - by vm_compute.
  - reflexivity.
  - reflexivity.
  - reflexivity.
  - by vm_compute.
  - reflexivity.
  - reflexivity.
  - apply not_elem_of_empty.
  - apply not_elem_of_empty.
  - apply not_elem_of_empty.
  - by vm_compute.
Defined.

(** ** Further runs of the job engine *)

Section JobOutcomes.

Variable utf8_encode : string -> bytes.
Variable private_key : Type.
Variable load_pem_private_key : bytes -> option private_key.
Variable rsa_sign : private_key -> bytes -> bytes.

#[local] Abbreviation run_job := (run utf8_encode private_key load_pem_private_key rsa_sign).
#[local] Abbreviation certify := (run_certify utf8_encode private_key load_pem_private_key rsa_sign).

(** A job [run] does not know how to handle raises before any log line
    of the branch and before any command. *)
Lemma run_action_rejected (w : world) (id : string) (j : job) (m : string) :
  jobs w !! id = Some j -> rejected j = Some m ->
  run_action utf8_encode id w = (Raise (Exception m), w).
Proof.
  intros Hj Hr. unfold run_action. erewrite bind_ok by (by apply get_job_ok).
  unfold rejected, wipe_cmd in Hr.
  destruct (String.eqb (job_os j) "linux").
  - destruct (String.eqb (job_action j) "luks_killslot"); [done|].
    destruct (String.eqb (job_action j) "zero_header"); [done|]. by injection Hr as <-.
  - destruct (String.eqb (job_os j) "windows"); [done|].
    destruct (String.eqb (job_os j) "macos"); [done|]. by injection Hr as <-.
Qed.

(** X1: a linux job with an unknown action, or a job for a system other
    than linux, windows and macos, runs no command: [run] logs the
    exception after the start line and the job ends [failed]; the status
    was never [finished] and no file but the log is touched. *)
Theorem run_rejected (w : world) (id : string) (j : job) (m : string) :
  jobs w !! id = Some j -> rejected j = Some m ->
  io_budget w = None -> log_path id ∉ dirs w ->
  exists w',
    run_job id w = (Ok tt, w')
    /\ trace w' = trace w
    /\ jobs w' !! id
       = Some (Job (job_id j) (job_os j) (job_target j) (job_action j) Failed
                 ((job_log j +:+ stamp w 0 (start_msg j))
                  +:+ stamp w 1 ("Exception: " +:+ m))
                 false (job_certificate j))
    /\ timeline w' = timeline w ++ [(id, Running); (id, Failed)]
    /\ files w' !! log_path id
       = Some (utf8_encode ((job_log j +:+ stamp w 0 (start_msg j))
                            +:+ stamp w 1 ("Exception: " +:+ m)))
    /\ (forall p, p <> log_path id -> files w' !! p = files w !! p).
Proof.
  intros Hj Hr Hb Hd.
  destruct (run_prologue utf8_encode private_key load_pem_private_key rsa_sign
              w id j Hj Hb Hd) as (w1 & E1 & J1 & Q1 & T1 & K1).
  destruct (run_handler_step utf8_encode w1 id (Exception m) _ J1
              (quiet_budget _ _ _ Q1 Hb) (quiet_dirs _ _ _ _ Q1 Hd))
    as (w2 & E2 & J2 & Q2 & T2 & K2 & F2).
  cbn [job_log with_log with_state handler_msg exn_str] in J2, F2.
  unfold stamp in J2, F2 |- *.
  rewrite (quiet_clock _ _ _ Q1), K1, !Nat.add_0_r in J2, F2.
  rewrite !Nat.add_0_r. replace (ticks w + 1) with (S (ticks w)) by lia.
  exists w2. split.
  { rewrite E1. erewrite try_raise; [exact E2|].
    apply bind_raise. eapply run_action_rejected; [exact J1|exact Hr]. }
  split; [rewrite (quiet_trace _ _ _ Q2); apply (quiet_trace _ _ _ Q1)|].
  split; [exact J2|].
  split; [rewrite T2, T1; symmetry; apply (app_assoc (timeline w) [_] [_])|].
  split; [exact F2|].
  intros p Hp. rewrite (quiet_files _ _ _ _ Q2 Hp). apply (quiet_files _ _ _ _ Q1 Hp).
Qed.

Lemma check_output_error (w : world) (c : command) (e : exn) :
  proc_error (procs w c) = Some e ->
  check_output c w = (Raise e, set_trace (fun t => t ++ [EvExec c]) w).
Proof.
  unfold check_output, proc_error. destruct (procs w c); [done|..]; by intros [= <-].
Qed.

(** X2: when the command of a linux job exits with a non-zero status or
    cannot be started, [run] logs the failure after the command line and
    the job ends [failed]; the status was never [finished], no
    certificate is recorded and no file but the log is touched. *)
Theorem run_command_error (w : world) (id : string) (j : job) (c : command)
    (e : exn) :
  jobs w !! id = Some j -> job_os j = "linux" -> wipe_cmd j = Some c ->
  proc_error (procs w c) = Some e ->
  io_budget w = None -> log_path id ∉ dirs w ->
  exists w',
    run_job id w = (Ok tt, w')
    /\ trace w' = trace w ++ [EvExec c]
    /\ jobs w' !! id
       = Some (Job (job_id j) (job_os j) (job_target j) (job_action j) Failed
                 (((job_log j +:+ stamp w 0 (start_msg j))
                   +:+ stamp w 1 ("Running: " +:+ cmd_text c))
                  +:+ stamp w 2 (handler_msg e))
                 false (job_certificate j))
    /\ timeline w' = timeline w ++ [(id, Running); (id, Failed)]
    /\ (forall p, p <> log_path id -> files w' !! p = files w !! p).
Proof.
  intros Hj Hos Hc Hp Hb Hd.
  destruct (run_prologue utf8_encode private_key load_pem_private_key rsa_sign
              w id j Hj Hb Hd) as (w1 & E1 & J1 & Q1 & T1 & K1).
  destruct (run_action_linux utf8_encode w1 id _ c J1 (quiet_budget _ _ _ Q1 Hb)
              (quiet_dirs _ _ _ _ Q1 Hd) Hos Hc)
    as (w2 & E2 & J2 & Q2 & T2 & K2).
  pose proof (quiet_trans _ _ _ _ Q1 Q2) as Q12.
  destruct (exec_frame id c w2) as (Xj & Xb & Xd & Xc & Xk & Xt & Xf & Xp & Xr).
  set (w3 := set_trace (fun t => t ++ [EvExec c]) w2) in *.
  assert (J3 : jobs w3 !! id = jobs w2 !! id) by (by rewrite Xj).
  rewrite J2 in J3.
  destruct (run_handler_step utf8_encode w3 id e _ J3)
    as (w4 & E4 & J4 & Q4 & T4 & K4 & F4).
  { rewrite Xb. apply (quiet_budget _ _ _ Q12 Hb). }
  { rewrite Xd. apply (quiet_dirs _ _ _ _ Q12 Hd). }
  cbn [job_log with_log with_state] in J4.
  unfold stamp in J4 |- *.
  rewrite Xc, Xk, (quiet_clock _ _ _ Q12), (quiet_clock _ _ _ Q1), K2, K1 in J4.
  rewrite !Nat.add_0_r in J4. rewrite !Nat.add_0_r.
  replace (ticks w + 1) with (S (ticks w)) by lia.
  replace (ticks w + 2) with (S (S (ticks w))) by lia.
  exists w4. split.
  { rewrite E1. erewrite try_raise; [exact E4|].
    apply bind_raise. rewrite E2. apply check_output_error.
    by rewrite (proj1 (proj2 (proj2 (proj2 Q12)))). }
  split; [rewrite (quiet_trace _ _ _ Q4), Xr; by rewrite (quiet_trace _ _ _ Q12)|].
  split; [exact J4|].
  split; [rewrite T4, Xt, T2, T1; symmetry; apply (app_assoc (timeline w) [_] [_])|].
  intros p Hne. rewrite (quiet_files _ _ _ _ Q4 Hne), Xf.
  apply (quiet_files _ _ _ _ Q12 Hne).
Qed.

Lemma cert_path_truthy (id : string) : exists c s, cert_path id = String c s.
Proof.
  destruct (cert_path id) as [|c s] eqn:E; [|by eauto].
  exfalso. revert E. apply job_path_fixed; [discriminate|intros s; discriminate..].
Qed.

(** X3: when the command of a linux job exits with status zero and the
    signing key is usable, [run] ends with the job [finished] and
    successful; the status went from [running] to [finished] only, the
    certificate request is answered with the certificate file, which
    holds the certificate dictionary, and beside the log only the
    certificate and the signature file are written. *)
Theorem run_success (w : world) (id : string) (j : job) (c : command)
    (pem : bytes) (priv : private_key) :
  jobs w !! id = Some j -> job_os j = "linux" -> wipe_cmd j = Some c ->
  procs w c = ExitZero ->
  files w !! RSA_PRIV = Some pem -> load_pem_private_key pem = Some priv ->
  io_budget w = None ->
  log_path id ∉ dirs w -> cert_path id ∉ dirs w -> sig_path id ∉ dirs w ->
  files w !! CERT_DIR = None ->
  exists w' l,
    run_job id w = (Ok tt, w')
    /\ trace w' = trace w ++ [EvExec c]
    /\ timeline w' = timeline w ++ [(id, Running); (id, Finished)]
    /\ api_status id w' = (Ok ("finished", l, true), w')
    /\ api_certificate id w' = (Ok (cert_path id), w')
    /\ files w' !! cert_path id
       = Some (utf8_encode
                 (json_dumps false
                    (make_cert j (clock w "%Y-%m-%dT%H:%M:%SZ" (ticks w + 3)))))
    /\ is_Some (files w' !! sig_path id)
    /\ dirs w' = {[CERT_DIR]} ∪ dirs w
    /\ (forall p, p <> log_path id -> p <> cert_path id -> p <> sig_path id ->
                  files w' !! p = files w !! p).
Proof.
  intros Hj Hos Hc Hp Hf Hl Hb Hd Hdc Hds Hcd.
  destruct (run_signed utf8_encode private_key load_pem_private_key rsa_sign
              w id j c pem priv Hj Hos Hc Hp Hf Hl Hb Hd Hdc Hds Hcd)
    as (w' & E & Tr & J & Fc & Fs & T & D & F).
  eexists w', _. split; [exact E|]. split; [exact Tr|]. split; [exact T|].
  split; [unfold api_status; by rewrite J|].
  split.
  { unfold api_certificate. rewrite J. cbn [job_state job_certificate].
    by destruct (cert_path_truthy id) as (c' & s & ->). }
  split; [exact Fc|]. split; [by rewrite Fs|]. split; [exact D|exact F].
Qed.

(** X4: [GET /certificate] answers 404 for an unknown job id and 400 for
    every job that is not [finished] or has no certificate recorded, be
    it queued, running, failed, or marked [finished] while its
    certificate is still being made; it serves the certificate file of a
    [finished] job with a certificate, and it changes nothing.  In
    particular the request is still refused after a run whose command
    exited with status zero but whose signing failed. *)
Theorem certificate_not_ready (w : world) (id : string) :
  (jobs w !! id = None ->
   api_certificate id w = (Raise (HTTPException 404 "job not found"), w))
  /\ (forall j,
        jobs w !! id = Some j ->
        job_state j <> Finished \/ job_certificate j = None ->
        api_certificate id w
        = (Raise (HTTPException 400 "certificate not ready"), w))
  /\ (forall j a s,
        jobs w !! id = Some j ->
        job_state j = Finished -> job_certificate j = Some (String a s) ->
        api_certificate id w = (Ok (cert_path id), w))
  /\ (forall j c,
        jobs w !! id = Some j -> job_os j = "linux" -> wipe_cmd j = Some c ->
        procs w c = ExitZero -> key_unusable private_key load_pem_private_key w ->
        io_budget w = None -> log_path id ∉ dirs w ->
        exists w',
          run_job id w = (Ok tt, w')
          /\ api_certificate id w'
             = (Raise (HTTPException 400 "certificate not ready"), w')).
Proof.
  split; [intros Hn; unfold api_certificate; by rewrite Hn|].
  split.
  { intros j Hj [Hs | Hc]; unfold api_certificate; rewrite Hj.
    - by destruct (job_state j).
    - rewrite Hc. by destruct (job_state j). }
  split.
  { intros j a s Hj Hs Hc. unfold api_certificate. by rewrite Hj, Hs, Hc. }
  intros j c Hj Hos Hc Hp Hk Hb Hd.
  destruct (run_unsigned utf8_encode private_key load_pem_private_key rsa_sign
              w id j c Hj Hos Hc Hp Hk Hb Hd) as (e & w' & E & _ & J & _).
  exists w'. split; [exact E|]. unfold api_certificate. by rewrite J.
Qed.

End JobOutcomes.

(** Witness of [run_rejected]: a linux job with an action [run] does not
    know. *)
Lemma run_rejected_witness :
  let w := toy_queued "linux" "shred" in
  let j := new_job "j1" "linux" "/dev/sdx" "shred" in
  exists w',
    run toy_encode bytes toy_load toy_sign "j1" w = (Ok tt, w')
    /\ trace w' = trace w
    /\ jobs w' !! "j1"
       = Some (Job (job_id j) (job_os j) (job_target j) (job_action j) Failed
                 ((job_log j +:+ stamp w 0 (start_msg j))
                  +:+ stamp w 1 ("Exception: " +:+ "unknown action"))
                 false (job_certificate j))
    /\ timeline w' = timeline w ++ [("j1", Running); ("j1", Failed)]
    /\ files w' !! log_path "j1"
       = Some (toy_encode ((job_log j +:+ stamp w 0 (start_msg j))
                           +:+ stamp w 1 ("Exception: " +:+ "unknown action")))
    /\ (forall p, p <> log_path "j1" -> files w' !! p = files w !! p).
Proof.
  intros w j.
  apply (run_rejected toy_encode bytes toy_load toy_sign w "j1" j "unknown action").
  - by vm_compute.
  - reflexivity.
  - reflexivity.
  - apply not_elem_of_empty.
Defined.

(** Witness of [run_command_error]: the key-slot job on a machine where
    the command exits with status 1. *)
Lemma run_command_error_witness :
  let w := toy_broken "linux" "luks_killslot" in
  let j := new_job "j1" "linux" "/dev/sdx" "luks_killslot" in
  let c := killslot_cmd "/dev/sdx" in
  let e := CalledProcessError "Command returned non-zero exit status 1." in
  exists w',
    run toy_encode bytes toy_load toy_sign "j1" w = (Ok tt, w')
    /\ trace w' = trace w ++ [EvExec c]
    /\ jobs w' !! "j1"
       = Some (Job (job_id j) (job_os j) (job_target j) (job_action j) Failed
                 (((job_log j +:+ stamp w 0 (start_msg j))
                   +:+ stamp w 1 ("Running: " +:+ cmd_text c))
                  +:+ stamp w 2 (handler_msg e))
                 false (job_certificate j))
    /\ timeline w' = timeline w ++ [("j1", Running); ("j1", Failed)]
    /\ (forall p, p <> log_path "j1" -> files w' !! p = files w !! p).
Proof.
  intros w j c e.
  apply (run_command_error toy_encode bytes toy_load toy_sign w "j1" j c e).
  - by vm_compute.
  - reflexivity.
  - reflexivity.
  - reflexivity.
  - reflexivity.
  - apply not_elem_of_empty.
Defined.

(** Witness of [run_success]: the header job on the toy machine with a
    key in place. *)
Lemma run_success_witness :
  let w := toy_signing "linux" "zero_header" in
  let j := new_job "j1" "linux" "/dev/sdx" "zero_header" in
  exists w' l,
    run toy_encode bytes toy_load toy_sign "j1" w = (Ok tt, w')
    /\ trace w' = trace w ++ [EvExec (zero_header_cmd "/dev/sdx")]
    /\ timeline w' = timeline w ++ [("j1", Running); ("j1", Finished)]
    /\ api_status "j1" w' = (Ok ("finished", l, true), w')
    /\ api_certificate "j1" w' = (Ok (cert_path "j1"), w')
    /\ files w' !! cert_path "j1"
       = Some (toy_encode
                 (json_dumps false
                    (make_cert j (clock w "%Y-%m-%dT%H:%M:%SZ" (ticks w + 3)))))
    /\ is_Some (files w' !! sig_path "j1")
    /\ dirs w' = {[CERT_DIR]} ∪ dirs w
    /\ (forall p, p <> log_path "j1" -> p <> cert_path "j1" -> p <> sig_path "j1" ->
                  files w' !! p = files w !! p).
Proof.
  intros w j.
  apply (run_success toy_encode bytes toy_load toy_sign w "j1" j
           (zero_header_cmd "/dev/sdx") [x2d; x2d] [x2d; x2d]).
  - by vm_compute.
  - reflexivity.
  - reflexivity.
  - reflexivity.
  - by vm_compute.
  - reflexivity.
  - reflexivity.
  - apply not_elem_of_empty.
  - apply not_elem_of_empty.
  - apply not_elem_of_empty.
  - by vm_compute.
Defined.

(** Witness of [certificate_not_ready]: an unknown id, the queued
    key-slot job on the toy machine, which has no key file, the same job
    after its run, and a finished job with a certificate. *)
Lemma certificate_not_ready_witness :
  let w := toy_queued "linux" "luks_killslot" in
  let j := new_job "j1" "linux" "/dev/sdx" "luks_killslot" in
  let w2 := set_jobs (<["j2" := with_certificate "certs/j2.json"
                                  (with_state Finished j)]>) w in
  api_certificate "j0" w = (Raise (HTTPException 404 "job not found"), w)
  /\ api_certificate "j1" w
     = (Raise (HTTPException 400 "certificate not ready"), w)
  /\ api_certificate "j2" w2 = (Ok (cert_path "j2"), w2)
  /\ (exists w',
        run toy_encode bytes toy_load toy_sign "j1" w = (Ok tt, w')
        /\ api_certificate "j1" w'
           = (Raise (HTTPException 400 "certificate not ready"), w')).
Proof.
  intros w j w2.
  split.
  { apply (proj1 (certificate_not_ready toy_encode bytes toy_load toy_sign w "j0")).
    by vm_compute. }
  split.
  { apply (proj1 (proj2 (certificate_not_ready toy_encode bytes toy_load toy_sign
                           w "j1")) j).
    - by vm_compute.
    - left. discriminate. }
  split.
  { apply (proj1 (proj2 (proj2 (certificate_not_ready toy_encode bytes toy_load
                                  toy_sign w2 "j2")))
             (with_certificate "certs/j2.json" (with_state Finished j))
             "c"%char "erts/j2.json").
    - by vm_compute.
    - reflexivity.
    - reflexivity. }
  apply (proj2 (proj2 (proj2 (certificate_not_ready toy_encode bytes toy_load
                                toy_sign w "j1")))
           j (killslot_cmd "/dev/sdx")).
  - by vm_compute.
  - reflexivity.
  - reflexivity.
  - reflexivity.
  - by vm_compute.
  - reflexivity.
  - apply not_elem_of_empty.
Defined.
